(** * renderchat: a shallow embedding of the conversation core

    The development follows [renderchat.py]: the markdown code-fence repair
    ([clean_markdown_code_blocks]), the turn segmenter ([count_turns],
    [filter_last_turns]), the XML serializer ([generate_xml_text]), the
    platform detector ([detect_platform]) and the three extractors.

    Python values are modelled as follows.
    - [str] is a sequence of Unicode code points, so [len] counts code
      points as Python does; literals are written [py "..."].
    - [int] is [Z]; list indices and lengths are [nat].
    - a raised exception is a value of [exn]; a function that may raise
      returns [outcome A].
    - a [while] loop is the bounded iteration of its guarded body, together
      with a lemma that the guard is false when the iteration stops. *)

From Stdlib Require Import Strings.String Strings.Ascii.
From Stdlib Require Import Numbers.DecimalString.
From Stdlib Require Import List NArith ZArith Arith Bool Lia.
Import ListNotations.

Set Implicit Arguments.

(* ================================================================== *)
(** ** Python strings *)

Definition str := list N.

(** A literal: the code points of an ASCII string. *)
Definition py (s : string) : str := map N_of_ascii (list_ascii_of_string s).

Definition NL : N := 10%N.
Definition DQUOTE : N := 34%N.

Fixpoint str_eqb (a b : str) : bool :=
  match a, b with
  | [], [] => true
  | x :: a', y :: b' => N.eqb x y && str_eqb a' b'
  | _, _ => false
  end.

(** [s.startswith(p)] *)
Fixpoint startswith (s p : str) {struct p} : bool :=
  match p, s with
  | [], _ => true
  | y :: p', x :: s' => N.eqb x y && startswith s' p'
  | _ :: _, [] => false
  end.

(** [sub in s] for strings: some suffix of [s] starts with [sub]. *)
Fixpoint contains (s sub : str) : bool :=
  startswith s sub ||
  match s with
  | [] => false
  | _ :: s' => contains s' sub
  end.

(** The code points [str.strip()] removes: those for which
    [str.isspace] holds. *)
Definition isspace (c : N) : bool :=
  ((9 <=? c) && (c <=? 13) || (28 <=? c) && (c <=? 32) ||
   (c =? 133) || (c =? 160) || (c =? 5760) ||
   (8192 <=? c) && (c <=? 8202) || (c =? 8232) || (c =? 8233) ||
   (c =? 8239) || (c =? 8287) || (c =? 12288))%N.

Fixpoint lstrip (s : str) : str :=
  match s with
  | [] => []
  | c :: s' => if isspace c then lstrip s' else s
  end.

Definition rstrip (s : str) : str := rev (lstrip (rev s)).

(** [s.strip()] *)
Definition strip (s : str) : str := rstrip (lstrip s).

(** [s.lower()], restricted to the ASCII letters.  Every use in the
    program tests the result against ASCII words (membership in the
    language set, containment of ["copy"] and ["files hidden"]); no
    code point outside ASCII lowers to a letter that could take part in
    such a match, so the restriction does not change any test. *)
Definition lower_char (c : N) : N :=
  if ((65 <=? c) && (c <=? 90))%N then (c + 32)%N else c.

Definition lower (s : str) : str := map lower_char s.

(** [s.split("\n")]: never empty, the last segment may be. *)
Fixpoint split_lines (s : str) : list str :=
  match s with
  | [] => [[]]
  | c :: s' =>
      if N.eqb c NL then [] :: split_lines s'
      else match split_lines s' with
           | l :: ls => (c :: l) :: ls
           | [] => [[c]]
           end
  end.

(** ["\n".join(lines)] *)
Fixpoint join_lines (lines : list str) : str :=
  match lines with
  | [] => []
  | [l] => l
  | l :: ls => l ++ NL :: join_lines ls
  end.

(** [str(n)] for a non-negative integer. *)
Definition str_of_nat (n : nat) : str :=
  py (NilEmpty.string_of_uint (Nat.to_uint n)).

(** [str(z)] for an integer. *)
Definition str_of_Z (z : Z) : str :=
  match z with
  | Zneg p => py "-" ++ str_of_nat (Pos.to_nat p)
  | _ => str_of_nat (Z.to_nat z)
  end.

(** Truthiness of a string. *)
Definition nonempty (s : str) : bool :=
  match s with [] => false | _ => true end.

(* ================================================================== *)
(** ** Exceptions *)

Inductive exn : Type :=
| ValueError (msg : str)
| AssertionError (msg : str)
| AttributeError
| KeyError
| TypeError
| JSONDecodeError
| RecursionError.

Inductive outcome (A : Type) : Type :=
| Returned (a : A)
| Raised (e : exn).

Arguments Returned {A} a.
Arguments Raised {A} e.

(* ================================================================== *)
(** ** Messages *)

Record Message : Type := mkMessage { role : str; content : str }.

Definition USER : str := py "user".
Definition ASSISTANT : str := py "assistant".

Definition is_user (m : Message) : bool := str_eqb (role m) USER.
Definition is_assistant (m : Message) : bool := str_eqb (role m) ASSISTANT.

(** The default of [nth] for [messages[i]]; the loops only read indices
    below [len(messages)]. *)
Definition dummy_message : Message := mkMessage [] [].

(* ================================================================== *)
(** ** clean_markdown_code_blocks *)

Definition FENCE : str := py "```".

Definition languages : list str :=
  map py ["python"; "javascript"; "typescript"; "bash"; "sh"; "json";
          "yaml"; "yml"; "html"; "css"; "jsx"; "tsx"; "java"; "cpp";
          "c"; "go"; "rust"; "ruby"; "php"]%string.

Definition in_languages (s : str) : bool := existsb (str_eqb s) languages.

(** The test of line 255:
    [line.strip() == "```" or
     (line.strip().startswith("```") and len(line.strip()) <= 20)]. *)
Definition is_fence_line (line : str) : bool :=
  str_eqb (strip line) FENCE ||
  (startswith (strip line) FENCE && (length (strip line) <=? 20)).

(** One execution of the body of [while i < len(lines)], on the loop
    state [(i, cleaned_lines)]; the state is left alone once the guard is
    false. *)
Definition clean_body (lines : list str) (st : nat * list str)
  : nat * list str :=
  let '(i, cleaned_lines) := st in
  if i <? length lines then
    let line := nth i lines [] in
    if is_fence_line line then
      if (i + 1 <? length lines) &&
         in_languages (lower (strip (nth (i + 1) lines [])))
      then
        let next_line := strip (nth (i + 1) lines []) in
        (i + 2, cleaned_lines ++ [FENCE ++ next_line])
      else (i + 1, cleaned_lines ++ [FENCE])
    else (i + 1, cleaned_lines ++ [line])
  else st.

(** The loop: [i] grows by at least one per iteration, so [len(lines)]
    iterations reach the exit (lemma [clean_loop_exits]). *)
Definition clean_loop (lines : list str) : nat * list str :=
  Nat.iter (length lines) (clean_body lines) (0, []).

Definition cleaned_lines_of (lines : list str) : list str :=
  snd (clean_loop lines).

Definition clean_markdown_code_blocks (markdown_text : str) : str :=
  let lines := split_lines markdown_text in
  strip (join_lines (cleaned_lines_of lines)).

(** The pass as the specification words it: a fence line that is not
    merged is emitted unchanged. *)
Fixpoint spec_clean_lines (lines : list str) : list str :=
  match lines with
  | [] => []
  | line :: rest =>
      if is_fence_line line then
        match rest with
        | next :: rest' =>
            if in_languages (lower (strip next))
            then (FENCE ++ strip next) :: spec_clean_lines rest'
            else line :: spec_clean_lines rest
        | [] => [line]
        end
      else line :: spec_clean_lines rest
  end.

Definition spec_clean (text : str) : str :=
  strip (join_lines (spec_clean_lines (split_lines text))).

(** No line would be rewritten by a further pass: every fence line is
    the bare marker and no language line follows it. *)
Fixpoint settled (lines : list str) : bool :=
  match lines with
  | [] => true
  | line :: rest =>
      (if is_fence_line line then
         str_eqb line FENCE &&
         match rest with
         | next :: _ => negb (in_languages (lower (strip next)))
         | [] => true
         end
       else true) && settled rest
  end.

(** The pass written by recursion on the lines that remain; lemma
    [cleaned_lines_of_eq] shows that the loop computes it. *)
Fixpoint clean_lines (lines : list str) : list str :=
  match lines with
  | [] => []
  | line :: rest =>
      if is_fence_line line then
        match rest with
        | next :: rest' =>
            if in_languages (lower (strip next))
            then (FENCE ++ strip next) :: clean_lines rest'
            else FENCE :: clean_lines rest
        | [] => [FENCE]
        end
      else line :: clean_lines rest
  end.

(** The size of a text in lines: every line counted with its separator. *)
Fixpoint total_size (lines : list str) : nat :=
  match lines with
  | [] => 0
  | l :: ls => S (length l) + total_size ls
  end.

(* ================================================================== *)
(** ** count_turns and filter_last_turns *)

(** The inner loop
    [while i < len(messages) and messages[i].role == "assistant": i += 1]. *)
Definition skip_body (messages : list Message) (i : nat) : nat :=
  if (i <? length messages) && is_assistant (nth i messages dummy_message)
  then i + 1 else i.

Definition skip_assistants (messages : list Message) (i : nat) : nat :=
  Nat.iter (length messages) (skip_body messages) i.

(** One execution of the body of the outer loop on [(turns, i)]. *)
Definition count_body (messages : list Message) (st : nat * nat)
  : nat * nat :=
  let '(turns, i) := st in
  if i <? length messages then
    if is_user (nth i messages dummy_message)
    then (turns + 1, skip_assistants messages (i + 1))
    else (turns, i + 1)
  else st.

Definition count_loop (messages : list Message) : nat * nat :=
  Nat.iter (length messages) (count_body messages) (0, 0).

Definition count_turns (messages : list Message) : nat :=
  fst (count_loop messages).

(** [range(len(messages) - 1, -1, -1)] *)
Definition range_down (n : nat) : list nat := rev (seq 0 n).

(** The [for] loop of [filter_last_turns] over the remaining indices, on
    the state [(turns_seen, start_idx)]; [break] ends the recursion. *)
Fixpoint find_start (messages : list Message) (n_turns : Z)
    (indices : list nat) (turns_seen : Z) (start_idx : nat) : nat :=
  match indices with
  | [] => start_idx
  | i :: indices' =>
      if is_user (nth i messages dummy_message) then
        let turns_seen := (turns_seen + 1)%Z in
        if (turns_seen =? n_turns)%Z then i
        else find_start messages n_turns indices' turns_seen start_idx
      else find_start messages n_turns indices' turns_seen start_idx
  end.

Definition msg_not_positive : str := py "Number of turns must be positive".

Definition msg_too_many (n_turns : Z) (total_turns : nat) : str :=
  py "Requested " ++ str_of_Z n_turns ++
  py " turns but conversation only has " ++ str_of_nat total_turns ++
  py " turns".

Definition filter_last_turns (messages : list Message) (n_turns : Z)
  : outcome (list Message) :=
  let total_turns := count_turns messages in
  if negb (n_turns >? 0)%Z then Raised (AssertionError msg_not_positive)
  else if negb (n_turns <=? Z.of_nat total_turns)%Z
  then Raised (AssertionError (msg_too_many n_turns total_turns))
  else
    let start_idx :=
      find_start messages n_turns (range_down (length messages)) 0%Z 0 in
    Returned (skipn start_idx messages).

(** The number of messages whose role is ["user"]. *)
Definition count_users (messages : list Message) : nat :=
  length (filter is_user messages).

(** The part of a conversation from its first ["user"] message on. *)
Fixpoint from_first_user (messages : list Message) : list Message :=
  match messages with
  | [] => []
  | m :: rest => if is_user m then messages else from_first_user rest
  end.

(** A conversation without its leading run of ["assistant"] messages. *)
Fixpoint drop_assistants (messages : list Message) : list Message :=
  match messages with
  | [] => []
  | m :: rest => if is_assistant m then drop_assistants rest else messages
  end.

(** A failure message carries a count when it contains its decimal
    form. *)
Definition carries_counts (msg : str) (requested : Z) (available : nat)
  : bool :=
  contains msg (str_of_Z requested) && contains msg (str_of_nat available).

(* ================================================================== *)
(** ** generate_xml_text *)

Definition message_lines (idx : nat) (msg : Message) : list str :=
  [ py "  <message index=" ++ DQUOTE :: str_of_nat idx ++ DQUOTE ::
      py " role=" ++ DQUOTE :: role msg ++ DQUOTE :: py ">";
    py "    <content>";
    py "      " ++ content msg;
    py "    </content>";
    py "  </message>" ].

(** [for idx, msg in enumerate(messages, 1): lines.append(...)], with
    [idx] the running counter and [lines] the accumulator. *)
Fixpoint xml_loop (messages : list Message) (idx : nat) (lines : list str)
  : list str :=
  match messages with
  | [] => lines
  | msg :: rest => xml_loop rest (idx + 1) (lines ++ message_lines idx msg)
  end.

Definition xml_lines (messages : list Message) : list str :=
  xml_loop messages 1 [py "<conversation>"] ++ [py "</conversation>"].

Definition generate_xml_text (messages : list Message) : str :=
  join_lines (xml_lines messages).

(* ================================================================== *)
(** ** detect_platform *)

Definition detect_error : str :=
  py "URL must be from chatgpt.com/share/, claude.ai/share/, or grok.com/share/".

Definition detect_platform (url : str) : outcome str :=
  if contains url (py "chatgpt.com/share/") then Returned (py "chatgpt")
  else if contains url (py "claude.ai/share/") then Returned (py "claude")
  else if contains url (py "grok.com/share/") || contains url (py "x.ai/share/")
  then Returned (py "grok")
  else Raised (ValueError detect_error).

(** The three host and path patterns the specification names. *)
Definition spec_patterns : list str :=
  map py ["chatgpt.com/share/"; "claude.ai/share/"; "grok.com/share/"]%string.

(* ================================================================== *)
(** ** Documents *)

#[local] Set Warnings "-register-all".

(** A parsed document as BeautifulSoup holds it: text nodes and tags.  A
    tag carries its name, the tokens of its [class] attribute (empty when
    the attribute is absent), its other attributes and its children. *)
Inductive node : Type :=
| NavigableString (text : str)
| Tag (name : str) (classes : list str) (attrs : list (str * str))
      (contents : list node).

Definition DOCUMENT : str := py "[document]".

(** [BeautifulSoup(str(n), "html.parser")]: the fragment under a document
    root of its own; parsing what was serialized gives the tree back. *)
Definition reparse (n : node) : node := Tag DOCUMENT [] [] [n].

(** The nodes below [n] in document order, each with its [.parent]. *)
Fixpoint below (n : node) : list (node * node) :=
  match n with
  | NavigableString _ => []
  | Tag _ _ _ contents => flat_map (fun c => (c, n) :: below c) contents
  end.

Definition descendants (n : node) : list node := map fst (below n).

Definition is_tag (n : node) : bool :=
  match n with Tag _ _ _ _ => true | NavigableString _ => false end.

Definition is_tag_named (name : str) (n : node) : bool :=
  match n with
  | Tag name' _ _ _ => str_eqb name' name
  | NavigableString _ => false
  end.

(** [tag.get("class", [])] *)
Definition classes_of (n : node) : list str :=
  match n with Tag _ classes _ _ => classes | NavigableString _ => [] end.

(** [c in tag.get("class", [])] *)
Definition has_class (c : str) (n : node) : bool :=
  existsb (str_eqb c) (classes_of n).

(** The filter [class_=lambda x: x and marker in x if x else False]: some
    class token contains [marker]. *)
Definition class_contains (marker : str) (n : node) : bool :=
  existsb (fun c => contains c marker) (classes_of n).

(** The filter
    [class_=lambda x: x and "copy" in str(x).lower() if x else False]. *)
Definition class_contains_lower (marker : str) (n : node) : bool :=
  existsb (fun c => contains (lower c) marker) (classes_of n).

(** [tag.get(name)] for an attribute other than [class]. *)
Definition attr_of (name : str) (n : node) : option str :=
  match n with
  | Tag _ _ attrs _ =>
      option_map snd (find (fun kv => str_eqb (fst kv) name) attrs)
  | NavigableString _ => None
  end.

(** [soup.find_all(name)] *)
Definition find_all_named (name : str) (soup : node) : list node :=
  filter (is_tag_named name) (descendants soup).

(** The text nodes below [n], in document order. *)
Definition strings_of (n : node) : list str :=
  flat_map (fun d => match d with NavigableString t => [t] | _ => [] end)
    (descendants n).

(** [tag.get_text()] *)
Definition get_text (n : node) : str :=
  match n with
  | NavigableString t => t
  | Tag _ _ _ _ => concat (strings_of n)
  end.

(** [tag.string]: the single text a node holds, if it holds just one. *)
Fixpoint string_of (n : node) : option str :=
  match n with
  | NavigableString t => Some t
  | Tag _ _ _ contents =>
      match contents with
      | c :: rest => match rest with [] => string_of c | _ :: _ => None end
      | [] => None
      end
  end.

(** [for e in soup.find_all(...): e.decompose()]: every matching node
    below the root goes, with all it contains. *)
Fixpoint prune (p : node -> bool) (n : node) : node :=
  match n with
  | NavigableString _ => n
  | Tag name classes attrs contents =>
      Tag name classes attrs
        (flat_map (fun c => if p c then [] else [prune p c]) contents)
  end.

Definition is_button (n : node) : bool := is_tag_named (py "button") n.

Definition is_copy_element (n : node) : bool :=
  is_tag n && class_contains_lower (py "copy") n.

(** The buttons go first, then what is marked as a copy control. *)
Definition remove_ui (content_copy : node) : node :=
  prune is_copy_element (prune is_button content_copy).

(** The notice of lines 144 and 225; its first code point is U+1F4CE. *)
Definition NOTICE : str :=
  128206%N ::
  py " **[Attachment Hidden]** *(Files/images are not included in shared conversations)*"
  ++ [NL; NL].

Definition claude_error : str :=
  py "Could not extract conversation data from Claude page".
Definition grok_error : str :=
  py "Could not extract conversation data from Grok page".
Definition chatgpt_error : str :=
  py "Could not extract conversation data from the page".

(** A text converter for plain fragments, used in examples: on tags that
    hold nothing but text, markdownify gives that text. *)
Definition plain_md (n : node) : str := get_text n.

Section Extractors.

(** [md(str(content_copy), heading_style="ATX", ...)], the markdownify
    conversion of a fragment. *)
Variable md : node -> str.

(** Lines 120-139: copy the fragment, remove the controls, convert,
    strip and clean. *)
Definition markdown_of (div : node) : str :=
  let content_copy := remove_ui (reparse div) in
  let markdown_text := strip (md content_copy) in
  clean_markdown_code_blocks markdown_text.

(** Lines 141-150 and 222-231, on the state
    [(messages, added_note)]: the notice is put before the text of the
    first user candidate when [has_hidden] holds, then the text is
    tested for emptiness. *)
Definition note_and_append (has_hidden : bool) (role : str)
    (markdown_text : str) (st : list Message * bool)
  : list Message * bool :=
  let '(messages, added_note) := st in
  let '(markdown_text, added_note) :=
    if has_hidden && str_eqb role USER && negb added_note
    then (NOTICE ++ markdown_text, true)
    else (markdown_text, added_note) in
  if nonempty markdown_text
  then (messages ++ [mkMessage role markdown_text], added_note)
  else (messages, added_note).

(** What one candidate adds to [messages]: when the notice is due the
    text with the notice before it, else the text unless it is empty. *)
Definition emitted (notice_due : bool) (role markdown_text : str)
  : list Message :=
  if notice_due then [mkMessage role (NOTICE ++ markdown_text)]
  else if nonempty markdown_text then [mkMessage role markdown_text]
  else [].

(** *** extract_claude_conversation *)

Definition claude_has_hidden_files (soup : node) : bool :=
  existsb (fun t => nonempty t && contains (lower t) (py "files hidden"))
    (strings_of soup).

Definition claude_role (div : node) : option str :=
  if has_class (py "!font-user-message") div then Some USER
  else if has_class (py "standard-markdown") div &&
          negb (has_class (py "font-claude-response") div)
  then Some ASSISTANT
  else None.

Definition all_content_divs (soup : node) : list (node * str) :=
  flat_map
    (fun div => match claude_role div with
                | Some role => [(div, role)]
                | None => []
                end)
    (find_all_named (py "div") soup).

Definition claude_body (has_hidden_files : bool)
    (st : list Message * bool) (candidate : node * str)
  : list Message * bool :=
  let '(div, role) := candidate in
  note_and_append has_hidden_files role (markdown_of div) st.

Definition claude_messages (soup : node) : list Message :=
  fst (fold_left (claude_body (claude_has_hidden_files soup))
         (all_content_divs soup) ([], false)).

Definition extract_claude_conversation (soup : node)
  : outcome (list Message) :=
  let messages := claude_messages soup in
  match messages with
  | [] => Raised (ValueError claude_error)
  | _ => Returned messages
  end.

(** *** extract_grok_conversation *)

Definition grok_has_hidden_attachments (soup : node) : bool :=
  existsb (fun container => negb (nonempty (strip (get_text container))))
    (filter (fun n => is_tag_named (py "section") n &&
                      class_contains (py "inline-media-container") n)
       (descendants soup)).

(** The bubbles, each with its parent. *)
Definition message_bubbles (soup : node) : list (node * node) :=
  filter (fun bp => is_tag_named (py "div") (fst bp) &&
                    class_contains (py "message-bubble") (fst bp))
    (below soup).

Definition grok_role (parent : node) : option str :=
  if has_class (py "items-end") parent then Some USER
  else if has_class (py "items-start") parent then Some ASSISTANT
  else None.

Definition grok_body (has_hidden_attachments : bool)
    (st : list Message * bool) (bubble : node * node)
  : list Message * bool :=
  match grok_role (snd bubble) with
  | None => st
  | Some role =>
      note_and_append has_hidden_attachments role
        (markdown_of (fst bubble)) st
  end.

Definition grok_messages (soup : node) : list Message :=
  fst (fold_left (grok_body (grok_has_hidden_attachments soup))
         (message_bubbles soup) ([], false)).

Definition extract_grok_conversation (soup : node)
  : outcome (list Message) :=
  let messages := grok_messages soup in
  match messages with
  | [] => Raised (ValueError grok_error)
  | _ => Returned messages
  end.

(** *** extract_conversation_from_html: the marked nodes *)

Definition ROLE_ATTR : str := py "data-message-author-role".

Definition message_divs (soup : node) : list node :=
  filter (fun n => match attr_of ROLE_ATTR n with
                   | Some _ => true
                   | None => false
                   end)
    (descendants soup).

(** [div.find("div", class_=...)], or the node itself. *)
Definition content_div_of (div : node) : node :=
  match find (fun d => is_tag_named (py "div") d &&
                       class_contains (py "prose") d)
          (descendants div) with
  | Some content_div => content_div
  | None => div
  end.

Definition chatgpt_body (messages : list Message) (div : node)
  : list Message :=
  let role := match attr_of ROLE_ATTR div with
              | Some r => r
              | None => []
              end in
  if negb (str_eqb role USER || str_eqb role ASSISTANT) then messages
  else
    let markdown_text := markdown_of (content_div_of div) in
    if nonempty markdown_text
    then messages ++ [mkMessage role markdown_text]
    else messages.

Definition chatgpt_primary (soup : node) : list Message :=
  fold_left chatgpt_body (message_divs soup) [].

End Extractors.

(* ================================================================== *)
(** ** The structured-data fallback of extract_conversation_from_html *)

Definition bind (A B : Type) (c : outcome A) (k : A -> outcome B)
  : outcome B :=
  match c with
  | Returned a => k a
  | Raised e => Raised e
  end.

Notation "x <- c ;; k" := (bind c (fun x => k))
  (at level 61, c at next level, right associativity).

(** How the body of a [try] inside a loop of a function ends: it falls
    through to the next iteration, it returns from the function, or it
    raises.  Each carries the list [messages] as it stands then. *)
Inductive flow : Type :=
| Normal (messages : list Message)
| Return_ (messages : list Message)
| Except (e : exn) (messages : list Message).

(** [except (json.JSONDecodeError, KeyError, TypeError)] *)
Definition caught (e : exn) : bool :=
  match e with
  | JSONDecodeError | KeyError | TypeError => true
  | _ => false
  end.

(** The exceptions of the handler, and the [AttributeError] of a method
    called on a value that does not have it: what the walk over the data
    can raise. *)
Definition data_exn (e : exn) : bool :=
  match e with
  | TypeError | KeyError | AttributeError | JSONDecodeError => true
  | _ => false
  end.

Section Fallback.

(** The numbers of JSON, with their truth value. *)
Variable number : Type.
Variable number_truthy : number -> bool.

(** What [json.loads] returns. A [dict] is the list of its items in
    insertion order, keys distinct. *)
Inductive json : Type :=
| JNone
| JBool (b : bool)
| JNumber (x : number)
| JStr (s : str)
| JList (items : list json)
| JDict (items : list (str * json)).

(** [json.loads]: it returns the decoded value or raises; beside
    [JSONDecodeError] it can raise a plain [ValueError] (an integer
    literal with too many digits) and [RecursionError] (deep nesting). *)
Variable json_loads : str -> outcome json.

(** [str(x)] for a value that is not a string. *)
Variable py_repr : json -> str.

Variable md : node -> str.

Definition truthy (x : json) : bool :=
  match x with
  | JNone => false
  | JBool b => b
  | JNumber n => number_truthy n
  | JStr s => nonempty s
  | JList items => match items with [] => false | _ => true end
  | JDict items => match items with [] => false | _ => true end
  end.

Definition py_str (x : json) : str :=
  match x with
  | JStr s => s
  | _ => py_repr x
  end.

Definition dict_get (key : str) (items : list (str * json)) : option json :=
  option_map snd (find (fun kv => str_eqb (fst kv) key) items).

(** [key in container] *)
Definition py_in (key : str) (container : json) : outcome bool :=
  match container with
  | JDict items =>
      Returned (match dict_get key items with
                | Some _ => true
                | None => false
                end)
  | JList items =>
      Returned (existsb (fun x => match x with
                                  | JStr s => str_eqb s key
                                  | _ => false
                                  end) items)
  | JStr s => Returned (contains s key)
  | _ => Raised TypeError
  end.

(** [container[key]] with a string key *)
Definition py_getitem (container : json) (key : str) : outcome json :=
  match container with
  | JDict items =>
      match dict_get key items with
      | Some v => Returned v
      | None => Raised KeyError
      end
  | _ => Raised TypeError
  end.

(** [obj.get(key, default)]: only a [dict] has the method. *)
Definition py_get (obj : json) (key : str) (default : json)
  : outcome json :=
  match obj with
  | JDict items =>
      Returned (match dict_get key items with
                | Some v => v
                | None => default
                end)
  | _ => Raised AttributeError
  end.

(** [obj.values()] *)
Definition py_values (obj : json) : outcome (list json) :=
  match obj with
  | JDict items => Returned (map snd items)
  | _ => Raised AttributeError
  end.

(** [for part in obj] *)
Definition py_iter (obj : json) : outcome (list json) :=
  match obj with
  | JList items => Returned items
  | JStr s => Returned (map (fun c => JStr [c]) s)
  | JDict items => Returned (map (fun kv => JStr (fst kv)) items)
  | _ => Raised TypeError
  end.

(** Lines 364-376: from the decoded data to [mapping.values()];
    [None] when the [if] is not taken or a [continue] is reached. *)
Definition mapping_values (data : json) : outcome (option (list json)) :=
  has_props <- py_in (py "props") data ;;
  if negb has_props then Returned None else
  props <- py_getitem data (py "props") ;;
  has_page_props <- py_in (py "pageProps") props ;;
  if negb has_page_props then Returned None else
  page_props <- py_getitem props (py "pageProps") ;;
  server_response <- py_get page_props (py "serverResponse") (JDict []) ;;
  data_obj <- py_get server_response (py "data") (JDict []) ;;
  if negb (truthy data_obj) then Returned None else
  mapping <- py_get data_obj (py "mapping") (JDict []) ;;
  if negb (truthy mapping) then Returned None else
  values <- py_values mapping ;;
  Returned (Some values).

(** Lines 377-397, the body of [for node_data in mapping.values()]. *)
Definition node_body (messages : list Message) (node_data : json)
  : outcome (list Message) :=
  message_data <- py_get node_data (py "message") JNone ;;
  if negb (truthy message_data) then Returned messages else
  author <- py_get message_data (py "author") (JDict []) ;;
  role <- py_get author (py "role") (JStr []) ;;
  match role with
  | JStr role =>
      if negb (str_eqb role USER || str_eqb role ASSISTANT)
      then Returned messages
      else
        content <- py_get message_data (py "content") (JDict []) ;;
        parts <- py_get content (py "parts") (JList []) ;;
        if negb (truthy parts) then Returned messages else
        items <- py_iter parts ;;
        let text := join_lines (map py_str (filter truthy items)) in
        if nonempty (strip text)
        then Returned (messages ++ [mkMessage role (strip text)])
        else Returned messages
  | _ => Returned messages
  end.

(** The loop over the nodes; an exception leaves [messages] as the
    iterations before it made it. *)
Fixpoint node_loop (values : list json) (messages : list Message)
  : list Message * option exn :=
  match values with
  | [] => (messages, None)
  | node_data :: rest =>
      match node_body messages node_data with
      | Returned messages' => node_loop rest messages'
      | Raised e => (messages, Some e)
      end
  end.

(** The body of the [try] of lines 360-400. *)
Definition script_body (script_string : str) (messages : list Message)
  : flow :=
  match json_loads script_string with
  | Raised e => Except e messages
  | Returned data =>
      match mapping_values data with
      | Raised e => Except e messages
      | Returned None => Normal messages
      | Returned (Some values) =>
          match node_loop values messages with
          | (messages', Some e) => Except e messages'
          | (messages', None) =>
              match messages' with
              | [] => Normal messages'
              | _ => Return_ messages'
              end
          end
      end
  end.

(** [for script in script_tags], with the handler of line 402. *)
Fixpoint script_loop (script_tags : list node) (messages : list Message)
  : flow :=
  match script_tags with
  | [] => Normal messages
  | script :: rest =>
      match string_of script with
      | None | Some [] => script_loop rest messages
      | Some script_string =>
          match script_body script_string messages with
          | Normal messages' => script_loop rest messages'
          | Return_ messages' => Return_ messages'
          | Except e messages' =>
              if caught e then script_loop rest messages'
              else Except e messages'
          end
      end
  end.

(** [soup.find_all("script", {"type": "application/json"})] *)
Definition script_tags (soup : node) : list node :=
  filter (fun n => is_tag_named (py "script") n &&
                   match attr_of (py "type") n with
                   | Some t => str_eqb t (py "application/json")
                   | None => false
                   end)
    (descendants soup).

(** Lines 352-403: the fallback runs when the marked nodes gave
    nothing. *)
Definition chatgpt_collect (soup : node) : flow :=
  let messages := chatgpt_primary md soup in
  match messages with
  | [] => script_loop (script_tags soup) messages
  | _ => Normal messages
  end.

Definition extract_conversation_from_html (soup : node)
  : outcome (list Message) :=
  match chatgpt_collect soup with
  | Return_ messages => Returned messages
  | Except e _ => Raised e
  | Normal messages =>
      match messages with
      | [] => Raised (ValueError chatgpt_error)
      | _ => Returned messages
      end
  end.

End Fallback.

Arguments JNone {number}.

(* ================================================================== *)
(** ** build_html: the parts that do not depend on the page template *)

(** [s.replace(old, new)] for a non-empty [old]: the matches are found
    from the left and do not overlap; [skip] counts the code points of
    the current match that are still to be passed over. *)
Fixpoint replace_from (old new : str) (skip : nat) (s : str) : str :=
  match s with
  | [] => []
  | c :: s' =>
      match skip with
      | S k => replace_from old new k s'
      | 0 =>
          if startswith s old
          then new ++ replace_from old new (length old - 1) s'
          else c :: replace_from old new 0 s'
      end
  end.

Definition replace (s old new : str) : str := replace_from old new 0 s.

Definition TEXTAREA_END : str := py "</textarea>".
Definition TEXTAREA_END_ESCAPED : str := py "&lt;/textarea&gt;".

(** Line 1077: the text put inside the [textarea] element. *)
Definition textarea_text (xml_text : str) : str :=
  replace xml_text TEXTAREA_END TEXTAREA_END_ESCAPED.

(** Lines 741-743: the preview of a message in the sidebar, before it is
    escaped. *)
Definition nav_preview (content : str) : str :=
  let first_line := nth 0 (split_lines content) [] in
  let preview := firstn 60 first_line in
  if (60 <? length first_line) || (1 <? length (split_lines content))
  then preview ++ py "..."
  else preview.

(** Lines 719-721.  The two words are ASCII, for which [lower] is exact
    as it is for the tests of the extractors. *)
Definition has_attachments (messages : list Message) : bool :=
  existsb (fun msg =>
             contains (lower (content msg)) (py "attachment hidden") ||
             contains (lower (content msg)) (py "files hidden"))
    messages.

(** Lines 709-713, the loop over [range(1, min(total_turns + 1, 11))] on
    the state [(xml_data_by_turns, turn_options)]; the dictionary is the
    list of its items in insertion order. *)
Fixpoint turn_loop (messages : list Message) (ns : list nat)
    (st : list (str * str) * list (nat * nat))
  : outcome (list (str * str) * list (nat * nat)) :=
  match ns with
  | [] => Returned st
  | n :: ns' =>
      match filter_last_turns messages (Z.of_nat n) with
      | Raised e => Raised e
      | Returned filtered_messages =>
          let xml_for_n_turns := generate_xml_text filtered_messages in
          turn_loop messages ns'
            (fst st ++ [(str_of_nat n, xml_for_n_turns)],
             snd st ++ [(n, length filtered_messages)])
      end
  end.

(** Lines 702-713. *)
Definition turn_data (messages : list Message)
  : outcome (list (str * str) * list (nat * nat)) :=
  let xml_text := generate_xml_text messages in
  let total_turns := count_turns messages in
  turn_loop messages (seq 1 (Nat.min (total_turns + 1) 11 - 1))
    ([(py "all", xml_text)], []).

(* ================================================================== *)
(** ** derive_output_path and the arguments of main *)

(** The class [[a-f0-9-]]. *)
Definition is_id_char (c : N) : bool :=
  ((97 <=? c) && (c <=? 102) || (48 <=? c) && (c <=? 57) || (c =? 45))%N.

Fixpoint take_id (s : str) : str :=
  match s with
  | c :: s' => if is_id_char c then c :: take_id s' else []
  | [] => []
  end.

(** [re.search(r"/share/([a-f0-9-]+)", url)], giving [match.group(1)]:
    the leftmost place where [/share/] is followed by a code point of the
    class, and the longest run of the class from there. *)
Fixpoint search_share_id (url : str) : option str :=
  match (if startswith url (py "/share/") then take_id (skipn 7 url)
         else []) with
  | c :: id => Some (c :: id)
  | [] =>
      match url with
      | [] => None
      | _ :: url' => search_share_id url'
      end
  end.

(** The path is given by the file name it is built from. *)
Definition derive_output_path (url : str) : outcome str :=
  platform <- detect_platform url ;;
  match search_share_id url with
  | Some id =>
      let conv_id := firstn 12 id in
      Returned (platform ++ py "_" ++ conv_id ++ py ".html")
  | None => Returned (platform ++ py "_conversation.html")
  end.

(** Lines 1232-1239 of [main]: the default path of the XML file. *)
Definition default_xml_path (url : str) : str :=
  match search_share_id url with
  | Some id => firstn 12 id ++ py ".xml"
  | None => py "conversation.xml"
  end.

(** Line 1249 of [main]: the lookup
    [{"chatgpt": "ChatGPT", "claude": "Claude", "grok": "Grok"}[platform]]. *)
Definition platform_name (platform : str) : outcome str :=
  if str_eqb platform (py "chatgpt") then Returned (py "ChatGPT")
  else if str_eqb platform (py "claude") then Returned (py "Claude")
  else if str_eqb platform (py "grok") then Returned (py "Grok")
  else Raised KeyError.

(** A step of [main]: it goes on with a value, it prints a line on the
    error stream and returns the exit code 1, or an exception leaves it
    for the handlers at the end of [main]. *)
Inductive main_step (A : Type) : Type :=
| Continue (a : A)
| Exit1 (stderr : str)
| Uncaught (e : exn).

Arguments Continue {A} a.
Arguments Exit1 {A} stderr.
Arguments Uncaught {A} e.

(** The prefix of the error lines; its first code point is U+274C. *)
Definition ERROR_PREFIX : str := 10060%N :: py " Error: ".

(** Lines 1179-1185: the checks on [--last-turns] and [--save-xml]. *)
Definition validate_arguments (save_xml : option str) (last_turns : option Z)
  : main_step unit :=
  match last_turns with
  | Some n =>
      match save_xml with
      | None =>
          Exit1 (ERROR_PREFIX ++
                 py "--last-turns requires --save-xml to be specified")
      | Some _ =>
          if (n <=? 0)%Z
          then Exit1 (ERROR_PREFIX ++
                      py "--last-turns must be a positive integer")
          else Continue tt
      end
  | None => Continue tt
  end.

(** Lines 1211-1229: the messages that go into the XML file.  The
    function called at line 1221 is an argument, so that a property can
    tell whether the call is made; [main] calls [filter_last_turns]. *)
Definition messages_for_xml_by
    (callee : list Message -> Z -> outcome (list Message))
    (messages : list Message) (last_turns : option Z)
  : main_step (list Message) :=
  match last_turns with
  | None => Continue messages
  | Some n =>
      let total_turns := count_turns messages in
      if (n >? Z.of_nat total_turns)%Z
      then Exit1 (ERROR_PREFIX ++ msg_too_many n total_turns)
      else
        match callee messages n with
        | Returned filtered => Continue filtered
        | Raised (AssertionError msg) => Exit1 (ERROR_PREFIX ++ msg)
        | Raised e => Uncaught e
        end
  end.

Definition messages_for_xml (messages : list Message) (last_turns : option Z)
  : main_step (list Message) :=
  messages_for_xml_by filter_last_turns messages last_turns.

(* ================================================================== *)
(** ** Predicates used in the properties *)

(** A message as the data model wants it: the role is one of the two,
    the content is not empty. *)
Definition well_formed (m : Message) : bool :=
  (is_user m || is_assistant m) && nonempty (content m).

(** No newline in a string. *)
Definition no_newline (s : str) : bool :=
  forallb (fun c => negb (N.eqb c NL)) s.



(** No newline in the role nor in the content. *)
Definition single_line (m : Message) : bool :=
  no_newline (role m) && no_newline (content m).

(** [strip] leaves the string alone. *)
Definition stripped (s : str) : bool := str_eqb (strip s) s.

(** A well-formed message whose content is stripped. *)
Definition tidy (m : Message) : bool := well_formed m && stripped (content m).

(** The list [messages] as a [flow] carries it. *)
Definition flow_messages (f : flow) : list Message :=
  match f with
  | Normal messages | Return_ messages | Except _ messages => messages
  end.

(* ================================================================== *)
(** * Properties *)

(** *** Strings *)

Lemma str_eqb_eq (a b : str) : str_eqb a b = true <-> a = b.
Proof.
  revert b; induction a as [|x a IH]; intros [|y b]; simpl; split;
    try congruence; try reflexivity.
  - intros H. apply andb_true_iff in H as [H1 H2].
    apply N.eqb_eq in H1. apply IH in H2. congruence.
  - intros H. injection H as -> ->. rewrite N.eqb_refl. simpl.
    now apply IH.
Qed.

Lemma str_eqb_refl (a : str) : str_eqb a a = true.
Proof. now apply str_eqb_eq. Qed.

Lemma str_eqb_neq (a b : str) : str_eqb a b = false <-> a <> b.
Proof.
  split.
  - intros H E. apply str_eqb_eq in E. congruence.
  - intros H. destruct (str_eqb a b) eqn:E; [|reflexivity].
    apply str_eqb_eq in E. contradiction.
Qed.

Lemma startswith_app (s p : str) :
  startswith s p = true <-> exists t, s = p ++ t.
Proof.
  revert s; induction p as [|y p IH]; intros s; simpl.
  - split; [eauto | reflexivity].
  - destruct s as [|x s].
    + split; [discriminate | intros [t H]; discriminate].
    + split.
      * intros H. apply andb_true_iff in H as [H1 H2].
        apply N.eqb_eq in H1. apply IH in H2 as [t ->]. subst. eauto.
      * intros [t H]. injection H as -> ->. rewrite N.eqb_refl. simpl.
        apply IH. eauto.
Qed.

Lemma startswith_length (s p : str) :
  startswith s p = true -> length p <= length s.
Proof.
  intros H. apply startswith_app in H as [t ->]. rewrite length_app. lia.
Qed.

Lemma contains_infix (s sub : str) :
  contains s sub = true <-> exists a b, s = a ++ sub ++ b.
Proof.
  induction s as [|x s IH]; simpl.
  - rewrite orb_false_r. split.
    + intros H. apply startswith_app in H as [t H]. exists [], t. exact H.
    + intros [a [b H]]. apply startswith_app.
      destruct a; [eauto | discriminate].
  - rewrite orb_true_iff. split.
    + intros [H | H].
      * apply startswith_app in H as [t H]. exists [], t. exact H.
      * apply IH in H as [a [b ->]]. exists (x :: a), b. reflexivity.
    + intros [a [b H]]. destruct a as [|y a].
      * left. apply startswith_app. eauto.
      * right. apply IH. injection H as _ H. eauto.
Qed.

Lemma lstrip_suffix (s : str) : exists w, s = w ++ lstrip s.
Proof.
  induction s as [|c s [w IH]]; simpl.
  - now exists [].
  - destruct (isspace c).
    + exists (c :: w). simpl. congruence.
    + now exists [].
Qed.

Lemma lstrip_length (s : str) : length (lstrip s) <= length s.
Proof.
  destruct (lstrip_suffix s) as [w H]. rewrite H at 2.
  rewrite length_app. lia.
Qed.

Lemma lstrip_length_eq (s : str) :
  length (lstrip s) = length s -> lstrip s = s.
Proof.
  intros H. destruct (lstrip_suffix s) as [w E].
  assert (length s = length w + length (lstrip s))
    by (rewrite E at 1; apply length_app).
  destruct w; [now rewrite E at 2 | simpl in *; lia].
Qed.

Lemma lstrip_idem (s : str) : lstrip (lstrip s) = lstrip s.
Proof.
  induction s as [|c s IH]; simpl; [reflexivity|].
  destruct (isspace c) eqn:E; [exact IH | simpl; now rewrite E].
Qed.

Lemma lstrip_app_nonspace (w : str) (c : N) (t : str) :
  isspace c = false -> lstrip (w ++ c :: t) = lstrip w ++ c :: t.
Proof.
  intros Hc. induction w as [|x w IH]; simpl.
  - now rewrite Hc.
  - destruct (isspace x); [exact IH | reflexivity].
Qed.

Lemma rstrip_length (s : str) : length (rstrip s) <= length s.
Proof.
  unfold rstrip. rewrite length_rev.
  etransitivity; [apply lstrip_length | now rewrite length_rev].
Qed.

Lemma rstrip_length_eq (s : str) :
  length (rstrip s) = length s -> rstrip s = s.
Proof.
  unfold rstrip. rewrite length_rev. intros H.
  rewrite lstrip_length_eq; [apply rev_involutive | now rewrite length_rev].
Qed.

Lemma rstrip_idem (s : str) : rstrip (rstrip s) = rstrip s.
Proof. unfold rstrip. now rewrite rev_involutive, lstrip_idem. Qed.

Lemma rstrip_cons_nonspace (c : N) (u : str) :
  isspace c = false -> rstrip (c :: u) = c :: rstrip u.
Proof.
  intros Hc. unfold rstrip. simpl.
  rewrite lstrip_app_nonspace by exact Hc.
  rewrite rev_app_distr. reflexivity.
Qed.

Lemma lstrip_rstrip_lstrip (s : str) :
  lstrip (rstrip (lstrip s)) = rstrip (lstrip s).
Proof.
  induction s as [|c s IH]; simpl; [reflexivity|].
  destruct (isspace c) eqn:E; [exact IH|].
  rewrite rstrip_cons_nonspace by exact E. simpl. now rewrite E.
Qed.

Lemma strip_idem (s : str) : strip (strip s) = strip s.
Proof.
  unfold strip. rewrite lstrip_rstrip_lstrip. apply rstrip_idem.
Qed.

Lemma strip_length (s : str) : length (strip s) <= length s.
Proof.
  unfold strip. etransitivity; [apply rstrip_length | apply lstrip_length].
Qed.

Lemma strip_length_eq (s : str) :
  length (strip s) = length s -> strip s = s.
Proof.
  unfold strip. intros H.
  pose proof (rstrip_length (lstrip s)). pose proof (lstrip_length s).
  assert (E : lstrip s = s) by (apply lstrip_length_eq; lia).
  rewrite E in *. apply rstrip_length_eq. lia.
Qed.

Lemma split_lines_nonempty (s : str) : split_lines s <> [].
Proof.
  destruct s as [|c s]; simpl; [discriminate|].
  destruct (N.eqb c NL); [discriminate|].
  destruct (split_lines s); discriminate.
Qed.

Lemma join_split (s : str) : join_lines (split_lines s) = s.
Proof.
  induction s as [|c s IH]; simpl; [reflexivity|].
  destruct (N.eqb c NL) eqn:E.
  - apply N.eqb_eq in E. subst c.
    pose proof (split_lines_nonempty s) as Hne.
    destruct (split_lines s) as [|l ls]; [contradiction|].
    change (join_lines ([] :: l :: ls)) with (NL :: join_lines (l :: ls)).
    now rewrite IH.
  - pose proof (split_lines_nonempty s) as Hne.
    destruct (split_lines s) as [|l ls]; [contradiction|].
    rewrite <- IH. destruct ls; reflexivity.
Qed.

Lemma join_length (ls : list str) :
  ls <> [] -> S (length (join_lines ls)) = total_size ls.
Proof.
  induction ls as [|l ls IH]; [congruence | intros _].
  destruct ls as [|l' ls].
  - simpl. lia.
  - change (join_lines (l :: l' :: ls)) with (l ++ NL :: join_lines (l' :: ls)).
    rewrite length_app.
    change (length (NL :: join_lines (l' :: ls)))
      with (S (length (join_lines (l' :: ls)))).
    change (total_size (l :: l' :: ls))
      with (S (length l) + total_size (l' :: ls)).
    rewrite <- IH by discriminate. lia.
Qed.

(** *** The cleaning loop *)

Lemma skipn_nth_cons (A : Type) (d : A) (l : list A) :
  forall i, i < length l -> skipn i l = nth i l d :: skipn (S i) l.
Proof.
  induction l as [|x l IH]; intros i Hi; simpl in Hi; [lia|].
  destruct i as [|i]; [reflexivity|].
  simpl. apply IH. lia.
Qed.

Lemma clean_body_exited (lines : list str) (acc : list str) (n : nat) :
  Nat.iter n (clean_body lines) (length lines, acc) = (length lines, acc).
Proof.
  induction n as [|n IH]; [reflexivity|].
  simpl. rewrite IH. unfold clean_body. now rewrite Nat.ltb_irrefl.
Qed.

Lemma clean_lines_cons (line : str) (rest : list str) :
  clean_lines (line :: rest)
  = if is_fence_line line then
      match rest with
      | next :: rest' =>
          if in_languages (lower (strip next))
          then (FENCE ++ strip next) :: clean_lines rest'
          else FENCE :: clean_lines rest
      | [] => [FENCE]
      end
    else line :: clean_lines rest.
Proof. reflexivity. Qed.

Lemma clean_loop_from (lines : list str) (fuel : nat) :
  forall i acc,
    i <= length lines -> length lines - i <= fuel ->
    Nat.iter fuel (clean_body lines) (i, acc)
    = (length lines, acc ++ clean_lines (skipn i lines)).
Proof.
  induction fuel as [|fuel IH]; intros i acc Hi Hfuel.
  - assert (i = length lines) by lia. subst i.
    rewrite skipn_all. simpl. now rewrite app_nil_r.
  - destruct (Nat.eq_dec i (length lines)) as [-> | Hne].
    + rewrite clean_body_exited, skipn_all. simpl. now rewrite app_nil_r.
    + assert (Hlt : i < length lines) by lia.
      rewrite Nat.iter_succ_r.
      rewrite (@skipn_nth_cons str [] lines i Hlt), clean_lines_cons.
      unfold clean_body at 2.
      apply Nat.ltb_lt in Hlt as Hguard. rewrite Hguard.
      replace (i + 1) with (S i) by lia.
      replace (i + 2) with (S (S i)) by lia.
      destruct (is_fence_line (nth i lines [])).
      * destruct (Nat.ltb_spec (S i) (length lines)) as [Hnext | Hlast].
        -- rewrite (@skipn_nth_cons str [] lines (S i) Hnext).
           rewrite andb_true_l.
           destruct (in_languages (lower (strip (nth (S i) lines [])))).
           ++ rewrite IH by lia. now rewrite <- app_assoc.
           ++ rewrite IH by lia.
              rewrite (@skipn_nth_cons str [] lines (S i) Hnext).
              now rewrite <- app_assoc.
        -- rewrite (skipn_all2 lines) by lia. rewrite andb_false_l.
           rewrite IH by lia. rewrite (skipn_all2 lines) by lia.
           simpl. now rewrite app_nil_r.
      * rewrite IH by lia. now rewrite <- app_assoc.
Qed.

Lemma clean_loop_eq (lines : list str) :
  clean_loop lines = (length lines, clean_lines lines).
Proof.
  unfold clean_loop. rewrite clean_loop_from by lia. reflexivity.
Qed.

(** When the iteration stops the guard [i < len(lines)] is false. *)
Lemma clean_loop_exits (lines : list str) :
  (fst (clean_loop lines) <? length lines) = false.
Proof. rewrite clean_loop_eq. apply Nat.ltb_irrefl. Qed.

Lemma cleaned_lines_of_eq (lines : list str) :
  cleaned_lines_of lines = clean_lines lines.
Proof. unfold cleaned_lines_of. now rewrite clean_loop_eq. Qed.

Lemma clean_eq (t : str) :
  clean_markdown_code_blocks t
  = strip (join_lines (clean_lines (split_lines t))).
Proof.
  unfold clean_markdown_code_blocks. now rewrite cleaned_lines_of_eq.
Qed.

(** Induction on a list that gives the hypothesis for the tail and for
    the tail of the tail, as the pass consumes one or two lines. *)
Lemma two_step_ind (A : Type) (P : list A -> Prop) :
  P [] ->
  (forall x, P [x]) ->
  (forall x y l, P l -> P (y :: l) -> P (x :: y :: l)) ->
  forall l, P l.
Proof.
  intros H0 H1 H2 l.
  enough (P l /\ forall x, P (x :: l)) by tauto.
  induction l as [|y l [IHl IHy]]; split; auto.
Qed.

Lemma fence_line_length (line : str) :
  is_fence_line line = true -> 3 <= length (strip line).
Proof.
  unfold is_fence_line. intros H. apply orb_true_iff in H as [H | H].
  - apply str_eqb_eq in H. rewrite H. reflexivity.
  - apply andb_true_iff in H as [H _].
    apply startswith_length in H. exact H.
Qed.

Lemma fence_line_short (line : str) :
  is_fence_line line = true -> length line <= 3 -> line = FENCE.
Proof.
  intros H Hlen. pose proof (fence_line_length line H) as H3.
  pose proof (strip_length line) as Hs.
  assert (E : strip line = line) by (apply strip_length_eq; lia).
  unfold is_fence_line in H. rewrite E in H.
  apply orb_true_iff in H as [H | H]; [now apply str_eqb_eq in H|].
  apply andb_true_iff in H as [H _].
  apply startswith_app in H as [t Ht].
  assert (length line = 3 + length t)
    by (rewrite Ht at 1; rewrite length_app; reflexivity).
  destruct t; [now rewrite app_nil_r in Ht | simpl in *; lia].
Qed.

Lemma settled_fixed (lines : list str) :
  settled lines = true -> clean_lines lines = lines.
Proof.
  induction lines as [|line rest IH]; [reflexivity|].
  simpl. intros H. apply andb_true_iff in H as [H Hrest].
  specialize (IH Hrest).
  destruct (is_fence_line line).
  - apply andb_true_iff in H as [Hline Hnext].
    apply str_eqb_eq in Hline. subst line.
    destruct rest as [|next rest']; [reflexivity|].
    apply negb_true_iff in Hnext. rewrite Hnext. now rewrite IH.
  - now rewrite IH.
Qed.

Lemma clean_lines_size (lines : list str) :
  total_size (clean_lines lines) <= total_size lines /\
  (total_size (clean_lines lines) = total_size lines ->
   settled lines = true).
Proof.
  induction lines as [| line | line next rest [IHle IHeq] [IHle' IHeq']]
    using two_step_ind.
  - simpl. auto.
  - simpl. destruct (is_fence_line line) eqn:F.
    + pose proof (fence_line_length line F). pose proof (strip_length line).
      change (total_size [FENCE]) with 4. simpl. split; [lia|].
      intros E. rewrite (fence_line_short line F) by lia. reflexivity.
    + simpl. split; [lia | reflexivity].
  - change (settled (line :: next :: rest))
      with ((if is_fence_line line
             then str_eqb line FENCE &&
                  negb (in_languages (lower (strip next)))
             else true) && settled (next :: rest)).
    change (total_size (line :: next :: rest))
      with (S (length line) + total_size (next :: rest)).
    change (clean_lines (line :: next :: rest))
      with (if is_fence_line line
            then if in_languages (lower (strip next))
                 then (FENCE ++ strip next) :: clean_lines rest
                 else FENCE :: clean_lines (next :: rest)
            else line :: clean_lines (next :: rest)).
    destruct (is_fence_line line) eqn:F.
    + pose proof (fence_line_length line F). pose proof (strip_length line).
      destruct (in_languages (lower (strip next))).
      * change (total_size ((FENCE ++ strip next) :: clean_lines rest))
          with (S (length (FENCE ++ strip next)) + total_size (clean_lines rest)).
        rewrite length_app. change (length FENCE) with 3.
        pose proof (strip_length next).
        change (total_size (next :: rest))
          with (S (length next) + total_size rest).
        split; lia.
      * change (total_size (FENCE :: clean_lines (next :: rest)))
          with (4 + total_size (clean_lines (next :: rest))).
        split; [lia|]. intros E.
        rewrite (fence_line_short line F) by lia.
        rewrite IHeq' by lia. reflexivity.
    + change (total_size (line :: clean_lines (next :: rest)))
        with (S (length line) + total_size (clean_lines (next :: rest))).
      split; [lia|]. intros E. rewrite IHeq' by lia. reflexivity.
Qed.

Lemma clean_lines_nonempty (lines : list str) :
  lines <> [] -> clean_lines lines <> [].
Proof.
  destruct lines as [|line rest]; [congruence | intros _].
  simpl. destruct (is_fence_line line); [|discriminate].
  destruct rest as [|next rest']; [discriminate|].
  destruct (in_languages (lower (strip next))); discriminate.
Qed.

(** The fixed points of the cleaner. *)
Lemma clean_fixed_iff (s : str) :
  clean_markdown_code_blocks s = s <->
  strip s = s /\ settled (split_lines s) = true.
Proof.
  rewrite clean_eq. split.
  - intros H.
    assert (Hs : strip s = s) by (rewrite <- H at 1; rewrite strip_idem; exact H).
    split; [exact Hs|].
    apply clean_lines_size.
    pose proof (split_lines_nonempty s) as Hne.
    pose proof (join_length (clean_lines_nonempty Hne)) as J1.
    pose proof (join_length Hne) as J2.
    rewrite join_split in J2.
    pose proof (strip_length (join_lines (clean_lines (split_lines s)))) as L.
    rewrite H in L.
    pose proof (proj1 (clean_lines_size (split_lines s))). lia.
  - intros [Hs Hset]. rewrite (settled_fixed _ Hset), join_split. exact Hs.
Qed.

Lemma clean_stripped (t : str) :
  strip (clean_markdown_code_blocks t) = clean_markdown_code_blocks t.
Proof. unfold clean_markdown_code_blocks. apply strip_idem. Qed.

(** *** Claims on the markdown normalizer *)

(** C1, counterexample.  Cleaning the two lines [```] and [python] gives
    the merged line [```python]; cleaning that again gives the bare
    marker, so the second pass changes the result of the first. *)
Lemma clean_not_idempotent :
  let t := join_lines [py "```"; py "python"] in
  clean_markdown_code_blocks t = py "```python" /\
  clean_markdown_code_blocks (clean_markdown_code_blocks t) = py "```" /\
  clean_markdown_code_blocks (clean_markdown_code_blocks t)
  <> clean_markdown_code_blocks t.
Proof. vm_compute. repeat split. discriminate. Qed.

(** C1, as amended.  A second pass leaves the cleaned text alone exactly
    when every fence line of the cleaned text is the bare marker and is
    not followed by a recognised language line. *)
Theorem clean_idempotent_iff_settled (t : str) :
  clean_markdown_code_blocks (clean_markdown_code_blocks t)
  = clean_markdown_code_blocks t
  <-> settled (split_lines (clean_markdown_code_blocks t)) = true.
Proof.
  rewrite clean_fixed_iff. split; [tauto|].
  intros H. split; [apply clean_stripped | exact H].
Qed.

Lemma clean_idempotent_iff_settled_witness :
  let t := join_lines [py "  intro"; py " ``` "; py "print(1)"; py "```"] in
  settled (split_lines (clean_markdown_code_blocks t)) = true /\
  clean_markdown_code_blocks (clean_markdown_code_blocks t)
  = clean_markdown_code_blocks t.
Proof.
  intros t. split; [vm_compute; reflexivity|].
  apply (proj2 (clean_idempotent_iff_settled t)). vm_compute. reflexivity.
Defined.

(** C2, counterexample.  The fence line [```python] followed by a line
    that is no language is emitted as the bare marker, not unchanged. *)
Lemma clean_rewrites_unmerged_fence :
  let t := join_lines [py "a"; py "```python"; py "b"] in
  clean_markdown_code_blocks t = join_lines [py "a"; py "```"; py "b"] /\
  spec_clean t = join_lines [py "a"; py "```python"; py "b"] /\
  clean_markdown_code_blocks t <> spec_clean t.
Proof. vm_compute. repeat split. discriminate. Qed.

(** C2, as amended.  The loop consumes every line and exits; on a fence
    line followed by a language line it emits the marker joined with the
    stripped next line and skips both; on any other fence line it emits
    the bare marker and advances one line; every other line is emitted
    unchanged; the joined result is stripped. *)
Theorem clean_pass_equations :
  (forall t, clean_markdown_code_blocks t
             = strip (join_lines (cleaned_lines_of (split_lines t)))) /\
  (forall lines, fst (clean_loop lines) = length lines) /\
  cleaned_lines_of [] = [] /\
  (forall line next rest,
      is_fence_line line = true ->
      in_languages (lower (strip next)) = true ->
      cleaned_lines_of (line :: next :: rest)
      = (FENCE ++ strip next) :: cleaned_lines_of rest) /\
  (forall line next rest,
      is_fence_line line = true ->
      in_languages (lower (strip next)) = false ->
      cleaned_lines_of (line :: next :: rest)
      = FENCE :: cleaned_lines_of (next :: rest)) /\
  (forall line, is_fence_line line = true ->
                cleaned_lines_of [line] = [FENCE]) /\
  (forall line rest,
      is_fence_line line = false ->
      cleaned_lines_of (line :: rest) = line :: cleaned_lines_of rest) /\
  clean_markdown_code_blocks
    (join_lines [py " ```"; py "python"; py "print(1)"; py "``` "])
  = join_lines [py "```python"; py "print(1)"; py "```"].
Proof.
  repeat split.
  - intros lines. now rewrite clean_loop_eq.
  - intros line next rest F L.
    rewrite !cleaned_lines_of_eq, clean_lines_cons, F, L. reflexivity.
  - intros line next rest F L.
    rewrite !cleaned_lines_of_eq, clean_lines_cons, F, L. reflexivity.
  - intros line F.
    rewrite !cleaned_lines_of_eq, clean_lines_cons, F. reflexivity.
  - intros line rest F.
    rewrite !cleaned_lines_of_eq, clean_lines_cons, F. reflexivity.
Qed.

Lemma clean_pass_equations_witness :
  cleaned_lines_of [py " ```x"; py " Python "; py "```"; py "text"]
  = [py "```Python"; py "```"; py "text"].
Proof.
  destruct clean_pass_equations as (_ & _ & _ & Hmerge & Hbare & _ & Hplain & _).
  rewrite Hmerge by (vm_compute; reflexivity).
  rewrite Hbare by (vm_compute; reflexivity).
  rewrite Hplain by (vm_compute; reflexivity).
  reflexivity.
Defined.

(** *** The turn counter *)

Lemma assistant_not_user (m : Message) :
  is_assistant m = true -> is_user m = false.
Proof.
  unfold is_assistant, is_user. intros H. apply str_eqb_eq in H.
  rewrite H. reflexivity.
Qed.

Lemma count_users_cons (m : Message) (rest : list Message) :
  count_users (m :: rest)
  = (if is_user m then 1 else 0) + count_users rest.
Proof. unfold count_users. simpl. now destruct (is_user m). Qed.

Lemma count_users_skipn (messages : list Message) (i : nat) :
  i < length messages ->
  count_users (skipn i messages)
  = (if is_user (nth i messages dummy_message) then 1 else 0)
    + count_users (skipn (S i) messages).
Proof.
  intros Hi. rewrite (@skipn_nth_cons Message dummy_message messages i Hi).
  apply count_users_cons.
Qed.

Lemma count_users_skipn_le (messages : list Message) (i : nat) :
  count_users (skipn i messages) <= count_users messages.
Proof.
  revert i; induction messages as [|m rest IH]; intros [|i]; simpl; auto.
  rewrite count_users_cons. specialize (IH i). lia.
Qed.

Lemma count_users_drop_assistants (messages : list Message) :
  count_users (drop_assistants messages) = count_users messages.
Proof.
  induction messages as [|m rest IH]; [reflexivity|].
  simpl. destruct (is_assistant m) eqn:E; [|reflexivity].
  rewrite count_users_cons, (assistant_not_user m E). exact IH.
Qed.

Lemma iter_fixed (A : Type) (f : A -> A) (a : A) (n : nat) :
  f a = a -> Nat.iter n f a = a.
Proof. intros H. induction n as [|n IH]; simpl; congruence. Qed.

(** The inner loop stops on the first message at or after [i] that is
    not an ["assistant"] message, or at the end. *)
Lemma skip_from (messages : list Message) (fuel : nat) :
  forall i,
    i <= length messages -> length messages - i <= fuel ->
    let j := Nat.iter fuel (skip_body messages) i in
    i <= j <= length messages /\
    skip_body messages j = j /\
    count_users (skipn j messages) = count_users (skipn i messages).
Proof.
  induction fuel as [|fuel IH]; intros i Hi Hfuel.
  - assert (i = length messages) by lia. subst i. simpl.
    repeat split; auto. unfold skip_body. now rewrite Nat.ltb_irrefl.
  - rewrite Nat.iter_succ_r.
    destruct (skip_body messages i =? i) eqn:E.
    + apply Nat.eqb_eq in E. rewrite E, (@iter_fixed _ _ _ fuel E).
      repeat split; auto.
    + apply Nat.eqb_neq in E. unfold skip_body in E |- * at 2.
      destruct (i <? length messages) eqn:G; [|simpl in E; congruence].
      destruct (is_assistant (nth i messages dummy_message)) eqn:R;
        [|simpl in E; congruence].
      simpl andb. cbv iota. apply Nat.ltb_lt in G.
      destruct (IH (i + 1)) as (Hj & Hfix & Hcount); [lia | lia |].
      repeat split; [lia | lia | exact Hfix |].
      rewrite Hcount. replace (i + 1) with (S i) by lia.
      rewrite (count_users_skipn messages G), (assistant_not_user _ R).
      reflexivity.
Qed.

Lemma skip_assistants_spec (messages : list Message) (i : nat) :
  i <= length messages ->
  i <= skip_assistants messages i <= length messages /\
  count_users (skipn (skip_assistants messages i) messages)
  = count_users (skipn i messages).
Proof.
  intros Hi. unfold skip_assistants.
  destruct (@skip_from messages (length messages) i Hi) as (H1 & _ & H2);
    [lia | auto].
Qed.

Lemma count_body_exited (messages : list Message) (turns n : nat) :
  Nat.iter n (count_body messages) (turns, length messages)
  = (turns, length messages).
Proof.
  apply iter_fixed. unfold count_body. now rewrite Nat.ltb_irrefl.
Qed.

Lemma count_loop_from (messages : list Message) (fuel : nat) :
  forall i turns,
    i <= length messages -> length messages - i <= fuel ->
    Nat.iter fuel (count_body messages) (turns, i)
    = (turns + count_users (skipn i messages), length messages).
Proof.
  induction fuel as [|fuel IH]; intros i turns Hi Hfuel.
  - assert (i = length messages) by lia. subst i.
    rewrite skipn_all. simpl. f_equal. unfold count_users. simpl. lia.
  - destruct (Nat.eq_dec i (length messages)) as [-> | Hne].
    + rewrite count_body_exited, skipn_all. f_equal.
      unfold count_users. simpl. lia.
    + assert (Hlt : i < length messages) by lia.
      rewrite Nat.iter_succ_r. unfold count_body at 2.
      apply Nat.ltb_lt in Hlt as Hguard. rewrite Hguard.
      rewrite (count_users_skipn messages Hlt).
      destruct (is_user (nth i messages dummy_message)).
      * destruct (@skip_assistants_spec messages (i + 1)) as (Hj & Hc);
          [lia|].
        rewrite IH by lia. rewrite Hc.
        replace (i + 1) with (S i) by lia. f_equal. lia.
      * rewrite IH by lia. replace (i + 1) with (S i) by lia. reflexivity.
Qed.

Lemma count_loop_eq (messages : list Message) :
  count_loop messages = (count_users messages, length messages).
Proof.
  unfold count_loop. rewrite count_loop_from by lia. reflexivity.
Qed.

Lemma count_turns_users (messages : list Message) :
  count_turns messages = count_users messages.
Proof. unfold count_turns. now rewrite count_loop_eq. Qed.

(** C5.  [count_turns] is the number of ["user"] messages: the scan adds
    one for a ["user"] message and resumes after the run of ["assistant"]
    messages that follows it, passes over any other message, and ends
    with every message consumed; so leading ["assistant"] messages count
    for nothing. *)
Theorem count_turns_counts_user_messages :
  (forall messages, count_turns messages = count_users messages) /\
  (forall messages, snd (count_loop messages) = length messages) /\
  count_turns [] = 0 /\
  (forall m rest, is_user m = true ->
      count_turns (m :: rest) = 1 + count_turns (drop_assistants rest)) /\
  (forall m rest, is_user m = false ->
      count_turns (m :: rest) = count_turns rest) /\
  count_turns [mkMessage ASSISTANT (py "stray"); mkMessage USER (py "Q");
               mkMessage ASSISTANT (py "A")] = 1 /\
  count_turns [mkMessage USER (py "Hi"); mkMessage ASSISTANT (py "Hello");
               mkMessage ASSISTANT (py "How can I help?");
               mkMessage USER (py "Bye")] = 2.
Proof.
  split; [exact count_turns_users|].
  split; [intros messages; now rewrite count_loop_eq|].
  split; [reflexivity|].
  split; [|split; [|split; reflexivity]].
  - intros m rest Hm.
    rewrite !count_turns_users, count_users_cons, Hm.
    now rewrite count_users_drop_assistants.
  - intros m rest Hm.
    rewrite !count_turns_users, count_users_cons, Hm. reflexivity.
Qed.

Lemma count_turns_counts_user_messages_witness :
  count_turns [mkMessage USER (py "a"); mkMessage ASSISTANT (py "b");
               mkMessage (py "system") (py "c"); mkMessage USER (py "d")]
  = 1 + count_turns [mkMessage (py "system") (py "c"); mkMessage USER (py "d")].
Proof.
  destruct count_turns_counts_user_messages as (_ & _ & _ & Huser & _).
  rewrite Huser by reflexivity. reflexivity.
Defined.

(** *** Slicing by turns *)

Lemma range_down_succ (k : nat) : range_down (S k) = k :: range_down k.
Proof.
  unfold range_down. rewrite seq_S, rev_app_distr. reflexivity.
Qed.

(** The backward scan, started above index [k] with the ["user"]
    messages after [k] already counted, stops on the ["user"] message
    that makes the count [n_turns]. *)
Lemma find_start_spec (messages : list Message) (n_turns : Z) (k : nat) :
  forall turns_seen start_idx,
    k <= length messages ->
    turns_seen = Z.of_nat (count_users (skipn k messages)) ->
    (turns_seen < n_turns <= Z.of_nat (count_users messages))%Z ->
    let r := find_start messages n_turns (range_down k) turns_seen start_idx in
    r < k /\
    is_user (nth r messages dummy_message) = true /\
    Z.of_nat (count_users (skipn r messages)) = n_turns.
Proof.
  induction k as [|k IH]; intros seen start Hk Hseen Hn.
  - simpl in Hseen. lia.
  - rewrite range_down_succ. simpl find_start.
    assert (Hlt : k < length messages) by lia.
    pose proof (count_users_skipn messages Hlt) as Hc.
    destruct (is_user (nth k messages dummy_message)) eqn:Hu.
    + destruct (Z.eqb_spec (seen + 1) n_turns) as [E | E].
      * simpl. repeat split; [lia | exact Hu | lia].
      * destruct (IH (seen + 1)%Z start) as (H1 & H2 & H3); [lia | lia | lia |].
        simpl. repeat split; [lia | exact H2 | exact H3].
    + destruct (IH seen start) as (H1 & H2 & H3); [lia | lia | lia |].
      simpl. repeat split; [lia | exact H2 | exact H3].
Qed.

Lemma filter_last_turns_ok (messages : list Message) (n_turns : Z) :
  (1 <= n_turns <= Z.of_nat (count_turns messages))%Z ->
  exists i,
    i < length messages /\
    is_user (nth i messages dummy_message) = true /\
    Z.of_nat (count_users (skipn i messages)) = n_turns /\
    filter_last_turns messages n_turns = Returned (skipn i messages).
Proof.
  intros Hn. unfold filter_last_turns.
  destruct (Z.gtb_spec n_turns 0) as [_ | H0]; [|lia].
  destruct (Z.leb_spec n_turns (Z.of_nat (count_turns messages))) as [_ | H1];
    [|lia].
  simpl negb. cbv iota.
  rewrite count_turns_users in Hn.
  destruct (@find_start_spec messages n_turns (length messages) 0%Z 0)
    as (Hr & Hu & Hc).
  - lia.
  - rewrite skipn_all. reflexivity.
  - lia.
  - eexists. repeat split; eauto.
Qed.

Lemma suffix_with_all_users (messages : list Message) :
  forall i,
    i < length messages ->
    is_user (nth i messages dummy_message) = true ->
    count_users (skipn i messages) = count_users messages ->
    skipn i messages = from_first_user messages.
Proof.
  induction messages as [|m rest IH]; intros i Hi Hu Hc; simpl in Hi; [lia|].
  destruct i as [|i]; simpl in *.
  - now rewrite Hu.
  - rewrite count_users_cons in Hc.
    pose proof (count_users_skipn_le rest i).
    destruct (is_user m); [lia|].
    apply IH; [lia | exact Hu | lia].
Qed.

(** C7.  For [1 <= n <= count_turns c] the call returns the suffix of [c]
    that starts at a ["user"] message and holds exactly [n] ["user"]
    messages, that is, the suffix from the [n]-th ["user"] message
    counted from the end; with [n = count_turns c] this is [c] from its
    first ["user"] message on. *)
Theorem filter_last_turns_suffix (messages : list Message) (n_turns : Z) :
  (1 <= n_turns <= Z.of_nat (count_turns messages))%Z ->
  (exists i first rest,
      i < length messages /\
      filter_last_turns messages n_turns = Returned (skipn i messages) /\
      skipn i messages = first :: rest /\
      nth i messages dummy_message = first /\
      is_user first = true /\
      Z.of_nat (count_users (skipn i messages)) = n_turns) /\
  (n_turns = Z.of_nat (count_turns messages) ->
   filter_last_turns messages n_turns = Returned (from_first_user messages)) /\
  filter_last_turns
    [mkMessage USER (py "Hi"); mkMessage ASSISTANT (py "Hello");
     mkMessage ASSISTANT (py "How can I help?"); mkMessage USER (py "Bye")] 1
  = Returned [mkMessage USER (py "Bye")].
Proof.
  intros Hn.
  destruct (filter_last_turns_ok messages Hn) as (i & Hi & Hu & Hc & Hr).
  split; [|split; [|reflexivity]].
  - exists i, (nth i messages dummy_message), (skipn (S i) messages).
    repeat split; auto.
    apply (@skipn_nth_cons Message dummy_message messages i Hi).
  - intros E. rewrite Hr. f_equal.
    apply suffix_with_all_users; auto.
    rewrite count_turns_users in E. lia.
Qed.

Lemma filter_last_turns_suffix_witness :
  let c := [mkMessage ASSISTANT (py "stray"); mkMessage USER (py "Q1");
            mkMessage ASSISTANT (py "A1"); mkMessage USER (py "Q2");
            mkMessage ASSISTANT (py "A2")] in
  filter_last_turns c 2 = Returned (from_first_user c).
Proof.
  intros c.
  apply (proj1 (proj2 (@filter_last_turns_suffix c 2%Z
                         ltac:(vm_compute; split; discriminate)))).
  reflexivity.
Defined.

(** C10.  The slice returned for [1 <= n <= count_turns c] has exactly
    [n] turns. *)
Theorem filter_last_turns_count (messages : list Message) (n_turns : Z) :
  (1 <= n_turns <= Z.of_nat (count_turns messages))%Z ->
  exists slice,
    filter_last_turns messages n_turns = Returned slice /\
    Z.of_nat (count_turns slice) = n_turns.
Proof.
  intros Hn.
  destruct (filter_last_turns_ok messages Hn) as (i & Hi & Hu & Hc & Hr).
  exists (skipn i messages). split; [exact Hr|].
  now rewrite count_turns_users.
Qed.

Lemma filter_last_turns_count_witness :
  exists slice,
    filter_last_turns
      [mkMessage USER (py "Q1"); mkMessage ASSISTANT (py "A1");
       mkMessage USER (py "Q2"); mkMessage USER (py "Q3");
       mkMessage ASSISTANT (py "A3")] 2 = Returned slice /\
    Z.of_nat (count_turns slice) = 2%Z.
Proof.
  apply filter_last_turns_count. vm_compute. split; discriminate.
Defined.

(** *** Failures of the slicer *)

Lemma contains_middle (a sub b : str) : contains (a ++ sub ++ b) sub = true.
Proof. apply contains_infix. eauto. Qed.

Lemma msg_too_many_carries (n_turns : Z) (total_turns : nat) :
  carries_counts (msg_too_many n_turns total_turns) n_turns total_turns = true.
Proof.
  unfold carries_counts, msg_too_many. apply andb_true_iff. split.
  - apply contains_middle.
  - rewrite 2!app_assoc. apply contains_middle.
Qed.

(** C6, counterexample.  For a request that is not positive the failure
    is the fixed message of the first assertion, whatever the
    conversation: it holds neither the requested nor the available
    count. *)
Lemma filter_last_turns_nonpositive_omits_counts :
  filter_last_turns [] 0 = Raised (AssertionError msg_not_positive) /\
  filter_last_turns [mkMessage USER (py "Q"); mkMessage USER (py "R")] (-7)
  = Raised (AssertionError msg_not_positive) /\
  carries_counts msg_not_positive 0 0 = false /\
  carries_counts msg_not_positive (-7) 2 = false.
Proof. vm_compute. repeat split. Qed.

(** C6, as amended.  The call fails exactly when [n <= 0] or
    [n > count_turns c].  For [n <= 0] the failure is the fixed message
    that the number must be positive; for [n > count_turns c] with
    [n > 0] it is the message that names the requested and the available
    count. *)
Theorem filter_last_turns_failure (messages : list Message) (n_turns : Z) :
  ((exists e, filter_last_turns messages n_turns = Raised e) <->
   (n_turns <= 0 \/ n_turns > Z.of_nat (count_turns messages))%Z) /\
  ((n_turns <= 0)%Z ->
   filter_last_turns messages n_turns
   = Raised (AssertionError msg_not_positive)) /\
  ((0 < n_turns)%Z -> (n_turns > Z.of_nat (count_turns messages))%Z ->
   filter_last_turns messages n_turns
   = Raised (AssertionError (msg_too_many n_turns (count_turns messages))) /\
   carries_counts (msg_too_many n_turns (count_turns messages))
     n_turns (count_turns messages) = true).
Proof.
  unfold filter_last_turns.
  destruct (Z.gtb_spec n_turns 0) as [Hpos | Hneg]; simpl negb; cbv iota.
  - destruct (Z.leb_spec n_turns (Z.of_nat (count_turns messages)))
      as [Hle | Hgt]; simpl negb; cbv iota.
    + split; [|split; intros; lia].
      split; [intros [e H]; discriminate | lia].
    + split; [|split; [intros; lia|]].
      * split; [lia | eauto].
      * intros _ _. split; [reflexivity | apply msg_too_many_carries].
  - split; [|split; [reflexivity | intros; lia]].
    split; [lia | eauto].
Qed.

Lemma filter_last_turns_failure_witness :
  filter_last_turns [mkMessage USER (py "Q"); mkMessage ASSISTANT (py "A")] 12
  = Raised (AssertionError
              (py "Requested 12 turns but conversation only has 1 turns")).
Proof.
  apply (proj2 (proj2 (filter_last_turns_failure
                         [mkMessage USER (py "Q"); mkMessage ASSISTANT (py "A")]
                         12%Z)));
    vm_compute; reflexivity.
Defined.

(** *** The serializer *)

(** The lines of the elements of the messages, numbered from [idx]. *)
Lemma xml_loop_eq (messages : list Message) :
  forall idx lines,
    xml_loop messages idx lines
    = lines ++
      flat_map (fun p => message_lines (fst p) (snd p))
        (combine (seq idx (length messages)) messages).
Proof.
  induction messages as [|m rest IH]; intros idx lines; simpl.
  - now rewrite app_nil_r.
  - rewrite IH. replace (idx + 1) with (S idx) by lia.
    now rewrite <- app_assoc.
Qed.



(** *** The platform detector *)

(** Splits a goal about the outcomes of a closed conditional and refutes
    the branches that equate different outcomes. *)
Ltac decide_outcomes :=
  repeat match goal with
    | |- _ /\ _ => split
    | |- _ <-> _ => split
    | |- _ -> _ => intro
    | H : _ /\ _ |- _ => destruct H
    | H : _ \/ _ |- _ => destruct H
    | H : exists _, _ |- _ => destruct H
    | H : true = false |- _ => discriminate H
    | H : false = true |- _ => discriminate H
    | H : Returned _ = Raised _ |- _ => discriminate H
    | H : Raised _ = Returned _ |- _ => discriminate H
    | H : Returned _ = Returned _ |- _ => vm_compute in H; discriminate H
    end;
  eauto.

(** C9, counterexample.  A URL on [x.ai/share/] matches none of the three
    patterns the specification names, yet a platform is returned. *)
Lemma detect_platform_fourth_pattern :
  let url := py "https://x.ai/share/abc" in
  forallb (fun p => negb (contains url p)) spec_patterns = true /\
  detect_platform url = Returned (py "grok").
Proof. vm_compute. split; reflexivity. Qed.

(** C9, as amended.  The detector tests containment, anywhere in the
    URL, of four fixed strings in order: [chatgpt.com/share/] gives
    chatgpt, [claude.ai/share/] gives claude, [grok.com/share/] and
    [x.ai/share/] give grok; it returns a platform exactly when one of
    them occurs and raises the error otherwise. *)
Theorem detect_platform_cases (url : str) :
  let chatgpt := contains url (py "chatgpt.com/share/") in
  let claude := contains url (py "claude.ai/share/") in
  let grok := contains url (py "grok.com/share/") in
  let xai := contains url (py "x.ai/share/") in
  (detect_platform url = Returned (py "chatgpt") <-> chatgpt = true) /\
  (detect_platform url = Returned (py "claude") <->
   chatgpt = false /\ claude = true) /\
  (detect_platform url = Returned (py "grok") <->
   chatgpt = false /\ claude = false /\ (grok = true \/ xai = true)) /\
  (detect_platform url = Raised (ValueError detect_error) <->
   chatgpt = false /\ claude = false /\ grok = false /\ xai = false) /\
  ((exists platform, detect_platform url = Returned platform) <->
   exists pattern a b,
     In pattern (map py ["chatgpt.com/share/"; "claude.ai/share/";
                         "grok.com/share/"; "x.ai/share/"]%string) /\
     url = a ++ pattern ++ b).
Proof.
  intros chatgpt claude grok xai.
  assert (Hany : (exists pattern a b,
                     In pattern (map py ["chatgpt.com/share/"; "claude.ai/share/";
                                         "grok.com/share/"; "x.ai/share/"]%string) /\
                     url = a ++ pattern ++ b)
                 <-> chatgpt = true \/ claude = true \/ grok = true \/ xai = true).
  { split.
    - intros (pattern & a & b & Hin & Hurl).
      assert (Hc : contains url pattern = true)
        by (apply contains_infix; eauto).
      simpl in Hin.
      destruct Hin as [<- | [<- | [<- | [<- | []]]]]; auto.
    - intros H.
      destruct H as [H | [H | [H | H]]];
        apply contains_infix in H as (a & b & Hurl);
        eexists; exists a, b; (split; [|exact Hurl]); simpl; auto. }
  rewrite Hany. clear Hany. unfold detect_platform.
  fold chatgpt claude grok xai.
  destruct chatgpt, claude, grok, xai; simpl; decide_outcomes.
Qed.

Lemma detect_platform_cases_witness :
  detect_platform (py "https://claude.ai/share/0a1b") = Returned (py "claude").
Proof.
  apply (proj1 (proj2 (detect_platform_cases
                         (py "https://claude.ai/share/0a1b")))).
  vm_compute. split; reflexivity.
Defined.

(** *** The extractors *)

Section ExtractorFacts.

Variable md : node -> str.

Lemma note_and_append_eq (has_hidden : bool) (role text : str)
    (messages : list Message) (added : bool) :
  note_and_append has_hidden role text (messages, added)
  = (messages ++
     emitted (has_hidden && str_eqb role USER && negb added) role text,
     added || has_hidden && str_eqb role USER).
Proof.
  unfold note_and_append, emitted.
  destruct has_hidden, (str_eqb role USER), added; simpl;
    destruct (nonempty text); simpl; now rewrite ?app_nil_r.
Qed.

(** The state after a run of candidates, each given by its role, if it
    has one, and its cleaned text. *)
Lemma notes_fold (A : Type) (has_hidden : bool)
    (body : list Message * bool -> A -> list Message * bool)
    (role_of : A -> option str) (text_of : A -> str) :
  (forall st c, body st c
                = match role_of c with
                  | Some role => note_and_append has_hidden role (text_of c) st
                  | None => st
                  end) ->
  forall candidates messages added,
  exists later,
    fold_left body candidates (messages, added)
    = (messages ++ later,
       added || has_hidden &&
                existsb (fun c => match role_of c with
                                  | Some role => str_eqb role USER
                                  | None => false
                                  end) candidates).
Proof.
  intros Hbody candidates.
  induction candidates as [|c rest IH]; intros messages added; simpl.
  - exists []. now rewrite app_nil_r, andb_false_r, orb_false_r.
  - rewrite Hbody. destruct (role_of c) as [role|].
    + rewrite note_and_append_eq.
      destruct (IH (messages ++
                    emitted (has_hidden && str_eqb role USER && negb added)
                      role (text_of c))
                  (added || has_hidden && str_eqb role USER))
        as [later ->].
      eexists. rewrite <- app_assoc. f_equal.
      destruct added, has_hidden, (str_eqb role USER); reflexivity.
    + destruct (IH messages added) as [later ->]. now exists later.
Qed.

(** The contribution of one candidate to the final list. *)
Lemma notes_fold_split (A : Type) (has_hidden : bool)
    (body : list Message * bool -> A -> list Message * bool)
    (role_of : A -> option str) (text_of : A -> str) :
  (forall st c, body st c
                = match role_of c with
                  | Some role => note_and_append has_hidden role (text_of c) st
                  | None => st
                  end) ->
  forall pre c post role,
    role_of c = Some role ->
    exists later,
      fst (fold_left body (pre ++ c :: post) ([], false))
      = fst (fold_left body pre ([], false)) ++
        emitted (has_hidden && str_eqb role USER &&
                 negb (existsb (fun c => match role_of c with
                                         | Some role => str_eqb role USER
                                         | None => false
                                         end) pre))
          role (text_of c)
        ++ later.
Proof.
  intros Hbody pre c post role Hrole.
  rewrite fold_left_app. simpl fold_left at 1.
  destruct (notes_fold has_hidden body role_of text_of Hbody pre [] false)
    as [before Hpre].
  rewrite Hpre. simpl fst. rewrite Hbody, Hrole, note_and_append_eq.
  match goal with
  | |- context [fold_left body post (?m, ?a)] =>
      destruct (notes_fold has_hidden body role_of text_of Hbody post m a)
        as [later Hpost]
  end.
  rewrite Hpost.
  exists later. simpl fst. rewrite <- app_assoc. do 2 f_equal.
  destruct has_hidden; simpl; [|reflexivity].
  destruct (str_eqb role USER); reflexivity.
Qed.

Lemma chatgpt_fold_grows (divs : list node) :
  forall messages,
  exists later, fold_left (chatgpt_body md) divs messages = messages ++ later.
Proof.
  induction divs as [|div rest IH]; intros messages; simpl.
  - exists []. now rewrite app_nil_r.
  - unfold chatgpt_body at 2.
    destruct (negb _); [apply IH|].
    destruct (nonempty _); [|apply IH].
    destruct (IH (messages ++
                  [mkMessage
                     match attr_of ROLE_ATTR div with
                     | Some r => r
                     | None => []
                     end
                     (markdown_of md (content_div_of div))]))
      as [later ->].
    eexists. now rewrite <- app_assoc.
Qed.

(** A list built one step per element, each step adding what depends
    on the elements before and on the element itself, is the
    concatenation of what the steps add. *)
Lemma closed_form_of_steps (A B : Type) (G : list A -> list B)
    (F : list A -> A -> list B) (d : A) :
  G [] = [] ->
  (forall pre c, G (pre ++ [c]) = G pre ++ F pre c) ->
  forall l,
    G l = flat_map (fun k => F (firstn k l) (nth k l d)) (seq 0 (length l)).
Proof.
  intros H0 Hstep l. induction l as [|c l IH] using rev_ind; [exact H0|].
  rewrite Hstep, IH, length_app. simpl length.
  rewrite Nat.add_1_r, seq_S, flat_map_app. simpl flat_map.
  rewrite app_nil_r. f_equal.
  - rewrite !flat_map_concat_map. f_equal. apply map_ext_in.
    intros k Hk. apply in_seq in Hk.
    rewrite firstn_app, app_nth1 by lia.
    replace (k - length l) with 0 by lia. simpl firstn.
    now rewrite app_nil_r.
  - rewrite firstn_app, Nat.sub_diag, firstn_all, nth_middle. simpl firstn.
    now rewrite app_nil_r.
Qed.

Lemma chatgpt_body_eq (messages : list Message) (div : node) :
  chatgpt_body md messages div
  = messages ++
    (let role := match attr_of ROLE_ATTR div with
                 | Some r => r
                 | None => []
                 end in
     let text := markdown_of md (content_div_of div) in
     if (str_eqb role USER || str_eqb role ASSISTANT) && nonempty text
     then [mkMessage role text] else []).
Proof.
  unfold chatgpt_body. cbv zeta.
  destruct (str_eqb _ USER || str_eqb _ ASSISTANT); simpl;
    [|now rewrite app_nil_r].
  destruct (nonempty _); [reflexivity | now rewrite app_nil_r].
Qed.

(** What the step for one candidate adds, after the candidates [pre]. *)
Lemma notes_fold_snoc (A : Type) (has_hidden : bool)
    (body : list Message * bool -> A -> list Message * bool)
    (role_of : A -> option str) (text_of : A -> str) :
  (forall st c, body st c
                = match role_of c with
                  | Some role => note_and_append has_hidden role (text_of c) st
                  | None => st
                  end) ->
  forall pre c,
    fst (fold_left body (pre ++ [c]) ([], false))
    = fst (fold_left body pre ([], false)) ++
      match role_of c with
      | Some role =>
          emitted (has_hidden && str_eqb role USER &&
                   negb (existsb (fun c => match role_of c with
                                           | Some role => str_eqb role USER
                                           | None => false
                                           end) pre))
            role (text_of c)
      | None => []
      end.
Proof.
  intros Hbody pre c. rewrite fold_left_app. simpl fold_left at 1.
  destruct (notes_fold has_hidden body role_of text_of Hbody pre [] false)
    as [before Hpre].
  rewrite Hpre, Hbody.
  destruct (role_of c) as [role|]; [|simpl; now rewrite app_nil_r].
  rewrite note_and_append_eq. simpl fst. do 2 f_equal.
  destruct has_hidden; simpl; [|reflexivity].
  destruct (str_eqb role USER); reflexivity.
Qed.

End ExtractorFacts.

(** C4, counterexample.  A Claude page with the text [files hidden] and
    one user node without content: the cleaned text of the candidate is
    empty, and a message that holds the notice alone is emitted. *)
Lemma empty_first_user_candidate_is_emitted :
  let div := Tag (py "div") [py "!font-user-message"] [] [] in
  let soup := Tag DOCUMENT [] []
                [div; Tag (py "p") [] [] [NavigableString (py "2 files hidden")]] in
  all_content_divs soup = [(div, USER)] /\
  markdown_of plain_md div = [] /\
  extract_claude_conversation plain_md soup = Returned [mkMessage USER NOTICE].
Proof. vm_compute. repeat split. Qed.

(** C4, as amended.  The list each extractor collects is, candidate by
    candidate in document order, exactly this.  In the first variant a
    candidate adds its message when its role is user or assistant and its
    cleaned text is not empty, and nothing otherwise.  In the second and
    third variant the notice is due for the first user candidate of a
    page on which hidden attachments were detected: that candidate adds
    its message with the notice before its cleaned text, empty or not;
    every other candidate adds its message when its cleaned text is not
    empty, and nothing otherwise (a bubble without a role adds
    nothing). *)
Theorem candidate_emission (md : node -> str) :
  (forall soup,
      let divs := message_divs soup in
      chatgpt_primary md soup
      = flat_map
          (fun k =>
             let div := nth k divs (NavigableString []) in
             let role := match attr_of ROLE_ATTR div with
                         | Some r => r
                         | None => []
                         end in
             let text := markdown_of md (content_div_of div) in
             if (str_eqb role USER || str_eqb role ASSISTANT) && nonempty text
             then [mkMessage role text]
             else [])
          (seq 0 (length divs))) /\
  (forall soup,
      let candidates := all_content_divs soup in
      claude_messages md soup
      = flat_map
          (fun k =>
             let '(div, role) := nth k candidates (NavigableString [], []) in
             let text := markdown_of md div in
             let notice_due :=
               claude_has_hidden_files soup && str_eqb role USER &&
               negb (existsb (fun c => str_eqb (snd c) USER)
                       (firstn k candidates)) in
             if notice_due then [mkMessage role (NOTICE ++ text)]
             else if nonempty text then [mkMessage role text]
             else [])
          (seq 0 (length candidates))) /\
  (forall soup,
      let bubbles := message_bubbles soup in
      grok_messages md soup
      = flat_map
          (fun k =>
             let '(bubble, parent) :=
               nth k bubbles (NavigableString [], NavigableString []) in
             match grok_role parent with
             | None => []
             | Some role =>
                 let text := markdown_of md bubble in
                 let notice_due :=
                   grok_has_hidden_attachments soup && str_eqb role USER &&
                   negb (existsb (fun b => match grok_role (snd b) with
                                           | Some r => str_eqb r USER
                                           | None => false
                                           end)
                           (firstn k bubbles)) in
                 if notice_due then [mkMessage role (NOTICE ++ text)]
                 else if nonempty text then [mkMessage role text]
                 else []
             end)
          (seq 0 (length bubbles))).
Proof.
  split; [|split].
  - intros soup divs. unfold chatgpt_primary. fold divs.
    apply (closed_form_of_steps
             (fun l => fold_left (chatgpt_body md) l [])
             (fun _ div =>
                let role := match attr_of ROLE_ATTR div with
                            | Some r => r
                            | None => []
                            end in
                let text := markdown_of md (content_div_of div) in
                if (str_eqb role USER || str_eqb role ASSISTANT) &&
                   nonempty text
                then [mkMessage role text] else [])
             (NavigableString [])); [reflexivity|].
    intros pre c. rewrite fold_left_app. simpl fold_left at 1.
    apply chatgpt_body_eq.
  - intros soup candidates. unfold claude_messages. fold candidates.
    rewrite (closed_form_of_steps
               (fun l => fst (fold_left
                                (claude_body md (claude_has_hidden_files soup))
                                l ([], false)))
               _ (NavigableString [], []) eq_refl
               (notes_fold_snoc (claude_has_hidden_files soup)
                  (claude_body md (claude_has_hidden_files soup))
                  (fun c => Some (snd c)) (fun c => markdown_of md (fst c))
                  (fun st c => match c with (d, r) => eq_refl end))).
    apply flat_map_ext. intros k.
    destruct (nth k candidates (NavigableString [], [])) as [div role].
    reflexivity.
  - intros soup bubbles. unfold grok_messages. fold bubbles.
    rewrite (closed_form_of_steps
               (fun l => fst (fold_left
                                (grok_body md (grok_has_hidden_attachments soup))
                                l ([], false)))
               _ (NavigableString [], NavigableString []) eq_refl
               (notes_fold_snoc (grok_has_hidden_attachments soup)
                  (grok_body md (grok_has_hidden_attachments soup))
                  (fun b => grok_role (snd b))
                  (fun b => markdown_of md (fst b))
                  (fun st b => eq_refl))).
    apply flat_map_ext. intros k.
    destruct (nth k bubbles (NavigableString [], NavigableString []))
      as [bubble parent].
    reflexivity.
Qed.

Lemma candidate_emission_witness :
  let div := Tag (py "div") [py "!font-user-message"] [] [] in
  let answer := Tag (py "div") [py "standard-markdown"] [] [] in
  let reply := Tag (py "div") [py "standard-markdown"] []
                 [NavigableString (py " ok ")] in
  let soup := Tag DOCUMENT [] []
                [div; answer; reply;
                 Tag (py "p") [] [] [NavigableString (py "files hidden")]] in
  claude_messages plain_md soup
  = [mkMessage USER NOTICE; mkMessage ASSISTANT (py "ok")].
Proof.
  intros div answer reply soup.
  rewrite (proj1 (proj2 (candidate_emission plain_md)) soup).
  reflexivity.
Defined.

(** *** Outcomes of the extractors *)

Section FallbackFacts.

Variable number : Type.
Variable number_truthy : number -> bool.
Variable json_loads : str -> outcome (json number).
Variable py_repr : json number -> str.
Variable md : node -> str.

Lemma bind_raised (A B : Type) (c : outcome A) (k : A -> outcome B) (e : exn) :
  bind c k = Raised e ->
  c = Raised e \/ exists a, c = Returned a /\ k a = Raised e.
Proof.
  destruct c as [a|e']; simpl; intros H; [right; eauto|].
  left. injection H as ->. reflexivity.
Qed.

Lemma py_in_raises (key : str) (x : json number) (e : exn) :
  py_in key x = Raised e -> data_exn e = true.
Proof. destruct x; simpl; intros H; inversion H; reflexivity. Qed.

Lemma py_getitem_raises (x : json number) (key : str) (e : exn) :
  py_getitem x key = Raised e -> data_exn e = true.
Proof.
  destruct x; simpl; intros H; try (inversion H; reflexivity).
  destruct (dict_get key items); inversion H; reflexivity.
Qed.

Lemma py_get_raises (x : json number) (key : str) (d : json number) (e : exn) :
  py_get x key d = Raised e -> data_exn e = true.
Proof. destruct x; simpl; intros H; inversion H; reflexivity. Qed.

Lemma py_values_raises (x : json number) (e : exn) :
  py_values x = Raised e -> data_exn e = true.
Proof. destruct x; simpl; intros H; inversion H; reflexivity. Qed.

Lemma py_iter_raises (x : json number) (e : exn) :
  py_iter x = Raised e -> data_exn e = true.
Proof. destruct x; simpl; intros H; inversion H; reflexivity. Qed.

(** Works through a chain of binds that is assumed to raise. *)
Ltac raised_in_chain :=
  repeat match goal with
    | H : bind _ _ = Raised _ |- _ =>
        apply bind_raised in H as [H | (? & _ & H)]
    | H : py_in _ _ = Raised _ |- _ => exact (py_in_raises _ _ H)
    | H : py_getitem _ _ = Raised _ |- _ => exact (py_getitem_raises _ _ H)
    | H : py_get _ _ _ = Raised _ |- _ => exact (py_get_raises _ _ _ H)
    | H : py_values _ = Raised _ |- _ => exact (py_values_raises _ H)
    | H : py_iter _ = Raised _ |- _ => exact (py_iter_raises _ H)
    | H : Returned _ = Raised _ |- _ => discriminate H
    | H : (if ?b then _ else _) = Raised _ |- _ => destruct b
    | H : match ?x with JNone => _ | _ => _ end = Raised _ |- _ => destruct x
    end.

Lemma mapping_values_raises (data : json number) (e : exn) :
  mapping_values number_truthy data = Raised e -> data_exn e = true.
Proof. unfold mapping_values. intros H. raised_in_chain. Qed.

Lemma node_body_raises (messages : list Message) (node_data : json number)
    (e : exn) :
  node_body number_truthy py_repr messages node_data = Raised e ->
  data_exn e = true.
Proof. unfold node_body. intros H. raised_in_chain. Qed.

Lemma node_loop_raises (values : list (json number)) :
  forall messages messages' e,
    node_loop number_truthy py_repr values messages = (messages', Some e) ->
    data_exn e = true.
Proof.
  induction values as [|v rest IH]; intros messages messages' e; simpl.
  - discriminate.
  - destruct (node_body number_truthy py_repr messages v) eqn:E.
    + apply IH.
    + intros H. injection H as _ <-. exact (node_body_raises _ _ E).
Qed.

Lemma script_body_flow (s : str) (messages : list Message) :
  match script_body number_truthy json_loads py_repr s messages with
  | Normal _ => True
  | Return_ messages' => messages' <> []
  | Except e _ => data_exn e = true \/ json_loads s = Raised e
  end.
Proof.
  unfold script_body.
  destruct (json_loads s) as [data|e]; [|now right].
  destruct (mapping_values number_truthy data) as [[values|]|e] eqn:E;
    [| exact I | left; exact (mapping_values_raises _ E)].
  destruct (node_loop number_truthy py_repr values messages)
    as [messages' [e|]] eqn:L.
  - left. exact (node_loop_raises _ _ L).
  - destruct messages'; [exact I | discriminate].
Qed.

Lemma script_loop_flow (scripts : list node) :
  forall messages,
    match script_loop number_truthy json_loads py_repr scripts messages with
    | Normal _ => True
    | Return_ messages' => messages' <> []
    | Except e _ =>
        e = AttributeError \/
        exists s, json_loads s = Raised e /\ caught e = false
    end.
Proof.
  induction scripts as [|script rest IH]; intros messages; simpl; [exact I|].
  destruct (string_of script) as [[|c s]|]; try apply IH.
  pose proof (script_body_flow (c :: s) messages) as Hbody.
  destruct (script_body number_truthy json_loads py_repr (c :: s) messages)
    as [m | m | e m]; [apply IH | exact Hbody |].
  destruct (caught e) eqn:C; [apply IH|].
  destruct Hbody as [Hd | Hl]; [|right; eauto].
  left. destruct e; simpl in *; try discriminate. reflexivity.
Qed.

(** How [extract_conversation_from_html] can end, [md] being total: a
    list that is not empty, its [ValueError], the [AttributeError] of
    the walk over the data, or an exception of [json.loads] that the
    handler does not catch. *)
Lemma chatgpt_outcomes (soup : node) :
  match extract_conversation_from_html number_truthy json_loads py_repr md
          soup with
  | Returned messages => messages <> []
  | Raised e =>
      e = ValueError chatgpt_error \/ e = AttributeError \/
      exists s, json_loads s = Raised e /\ caught e = false
  end.
Proof.
  unfold extract_conversation_from_html, chatgpt_collect.
  destruct (chatgpt_primary md soup) as [|m ms]; [|discriminate].
  pose proof (script_loop_flow (script_tags soup) []) as H.
  destruct (script_loop number_truthy json_loads py_repr (script_tags soup) [])
    as [messages | messages | e messages]; auto.
  destruct messages; [auto | discriminate].
Qed.

(** No extractor returns an empty list, and each raises its
    [ValueError] when its strategies end with no message. *)
Lemma extractors_never_return_empty (soup : node) :
  (forall messages,
      extract_conversation_from_html number_truthy json_loads py_repr md soup
      = Returned messages -> messages <> []) /\
  (forall messages,
      extract_claude_conversation md soup = Returned messages ->
      messages <> []) /\
  (forall messages,
      extract_grok_conversation md soup = Returned messages ->
      messages <> []) /\
  (chatgpt_collect number_truthy json_loads py_repr md soup = Normal [] ->
   extract_conversation_from_html number_truthy json_loads py_repr md soup
   = Raised (ValueError chatgpt_error)) /\
  (claude_messages md soup = [] ->
   extract_claude_conversation md soup = Raised (ValueError claude_error)) /\
  (grok_messages md soup = [] ->
   extract_grok_conversation md soup = Raised (ValueError grok_error)).
Proof.
  repeat split.
  - intros messages H. pose proof (chatgpt_outcomes soup) as O.
    rewrite H in O. exact O.
  - unfold extract_claude_conversation. intros messages.
    destruct (claude_messages md soup); intros H; inversion H. discriminate.
  - unfold extract_grok_conversation. intros messages.
    destruct (grok_messages md soup); intros H; inversion H. discriminate.
  - unfold extract_conversation_from_html. now intros ->.
  - unfold extract_claude_conversation. now intros ->.
  - unfold extract_grok_conversation. now intros ->.
Qed.

End FallbackFacts.

(** The data of a page whose server response is [null]:
    [{"props": {"pageProps": {"serverResponse": null}}}]. *)
Lemma null_response_raises (number : Type) (number_truthy : number -> bool) :
  mapping_values number_truthy
    (JDict [(py "props",
             JDict [(py "pageProps",
                     JDict [(py "serverResponse", JNone)])])])
  = Raised AttributeError.
Proof. reflexivity. Qed.

(** C3, the failing input.  A page without marked message nodes whose
    only JSON script decodes to
    [{"props": {"pageProps": {"serverResponse": null}}}] holds no
    message; the call [server_response.get] raises [AttributeError],
    which the handler does not catch, so the extractor ends with that
    exception and not with its [ValueError]. *)
Theorem fallback_attribute_error_escapes
    (number : Type) (number_truthy : number -> bool)
    (json_loads : str -> outcome (json number))
    (py_repr : json number -> str) (md : node -> str)
    (c : N) (s : str) :
  json_loads (c :: s)
  = Returned (JDict [(py "props",
                  JDict [(py "pageProps",
                          JDict [(py "serverResponse", JNone)])])]) ->
  let soup :=
    Tag DOCUMENT [] []
      [Tag (py "script") [] [(py "type", py "application/json")]
         [NavigableString (c :: s)]] in
  chatgpt_primary md soup = [] /\
  extract_conversation_from_html number_truthy json_loads py_repr md soup
  = Raised AttributeError /\
  extract_conversation_from_html number_truthy json_loads py_repr md soup
  <> Raised (ValueError chatgpt_error).
Proof.
  intros Hloads soup.
  assert (E : extract_conversation_from_html number_truthy json_loads py_repr
                md soup = Raised AttributeError).
  { unfold extract_conversation_from_html, chatgpt_collect.
    change (chatgpt_primary md soup) with (@nil Message).
    change (script_tags soup)
      with [Tag (py "script") [] [(py "type", py "application/json")]
              [NavigableString (c :: s)]].
    simpl script_loop. unfold script_body.
    rewrite Hloads, null_response_raises. reflexivity. }
  split; [reflexivity|]. split; [exact E|].
  rewrite E. discriminate.
Qed.

Lemma fallback_attribute_error_escapes_witness :
  let text :=
    py "{" ++ DQUOTE :: py "props" ++ DQUOTE :: py ": {" ++
    DQUOTE :: py "pageProps" ++ DQUOTE :: py ": {" ++
    DQUOTE :: py "serverResponse" ++ DQUOTE :: py ": null}}}" in
  let data : json Z :=
    JDict [(py "props",
            JDict [(py "pageProps", JDict [(py "serverResponse", JNone)])])] in
  extract_conversation_from_html (fun z => negb (Z.eqb z 0))
    (fun _ => Returned data) (fun _ => []) plain_md
    (Tag DOCUMENT [] []
       [Tag (py "script") [] [(py "type", py "application/json")]
          [NavigableString text]])
  = Raised AttributeError.
Proof.
  exact (proj1 (proj2
    (@fallback_attribute_error_escapes Z (fun z => negb (Z.eqb z 0))
       (fun _ => Returned (JDict [(py "props",
                               JDict [(py "pageProps",
                                       JDict [(py "serverResponse", JNone)])])]))
       (fun _ => []) plain_md 123%N _ eq_refl))).
Defined.

(* ================================================================== *)
(** * Further properties *)

(** *** The normalizer *)

Lemma lstrip_app_keep (u v : str) :
  lstrip u <> [] -> lstrip (u ++ v) = lstrip u ++ v.
Proof.
  induction u as [|c u IH]; simpl; [congruence|].
  destruct (isspace c); [exact IH | reflexivity].
Qed.

Lemma rstrip_app_keep (a x : str) :
  rstrip x <> [] -> rstrip (a ++ x) = a ++ rstrip x.
Proof.
  unfold rstrip. intros H. rewrite rev_app_distr.
  rewrite lstrip_app_keep.
  - now rewrite rev_app_distr, rev_involutive.
  - intros E. apply H. now rewrite E.
Qed.

Lemma language_length (s : str) :
  in_languages s = true -> 1 <= length s <= 10.
Proof.
  unfold in_languages. intros H.
  apply existsb_exists in H as (l & Hin & Heq).
  apply str_eqb_eq in Heq. subst l.
  assert (F : forallb (fun l => (1 <=? length l) && (length l <=? 10))
                languages = true) by reflexivity.
  rewrite forallb_forall in F. specialize (F s Hin).
  apply andb_true_iff in F as [F1 F2].
  apply Nat.leb_le in F1, F2. lia.
Qed.

Lemma merged_line_is_fence (next : str) :
  in_languages (lower (strip next)) = true ->
  is_fence_line (FENCE ++ strip next) = true /\ FENCE ++ strip next <> FENCE.
Proof.
  intros H. apply language_length in H.
  unfold lower in H. rewrite length_map in H.
  assert (Hne : strip next <> []) by (destruct (strip next); simpl in *; [lia | discriminate]).
  assert (Hr : rstrip (strip next) = strip next) by apply rstrip_idem.
  assert (E : strip (FENCE ++ strip next) = FENCE ++ strip next).
  { unfold strip at 1. change (lstrip (FENCE ++ strip next)) with (FENCE ++ strip next).
    rewrite rstrip_app_keep; rewrite Hr; [reflexivity | exact Hne]. }
  split.
  - unfold is_fence_line. rewrite E. apply orb_true_iff. right.
    apply andb_true_iff. split.
    + apply startswith_app. eauto.
    + apply Nat.leb_le. rewrite length_app. change (length FENCE) with 3. lia.
  - intros C. apply (f_equal (@length N)) in C.
    rewrite length_app in C. change (length FENCE) with 3 in C. lia.
Qed.

(** X1.  The cleaned text is never longer than the text. *)
Theorem clean_never_longer (t : str) :
  length (clean_markdown_code_blocks t) <= length t.
Proof.
  rewrite clean_eq.
  pose proof (split_lines_nonempty t) as Hne.
  pose proof (join_length (clean_lines_nonempty Hne)) as J1.
  pose proof (join_length Hne) as J2. rewrite join_split in J2.
  pose proof (strip_length (join_lines (clean_lines (split_lines t)))).
  pose proof (proj1 (clean_lines_size (split_lines t))). lia.
Qed.

Lemma no_fence_settled (lines : list str) :
  forallb (fun l => negb (is_fence_line l)) lines = true ->
  settled lines = true.
Proof.
  induction lines as [|l rest IH]; [reflexivity|].
  simpl. intros H. apply andb_true_iff in H as [H1 H2].
  apply negb_true_iff in H1. rewrite H1. simpl. now apply IH.
Qed.

(** X2.  A text none of whose lines is a fence line is only stripped. *)
Theorem clean_without_fence (t : str) :
  forallb (fun l => negb (is_fence_line l)) (split_lines t) = true ->
  clean_markdown_code_blocks t = strip t.
Proof.
  intros H. rewrite clean_eq.
  rewrite (settled_fixed _ (no_fence_settled _ H)). now rewrite join_split.
Qed.

Lemma clean_without_fence_witness :
  clean_markdown_code_blocks (join_lines [py "  def f():"; py "    return ``x``  "])
  = strip (join_lines [py "  def f():"; py "    return ``x``  "]).
Proof. apply clean_without_fence. vm_compute. reflexivity. Defined.

Lemma unsettled_line (m : str) (lines : list str) :
  In m lines -> is_fence_line m = true -> m <> FENCE ->
  settled lines = false.
Proof.
  intros Hin F Hne. induction lines as [|l rest IH]; [destruct Hin|].
  cbn [settled]. destruct Hin as [-> | Hin].
  - rewrite F. apply str_eqb_neq in Hne. rewrite Hne. reflexivity.
  - rewrite (IH Hin). apply andb_false_r.
Qed.

Lemma unsettled_changes (lines : list str) :
  settled lines = false -> clean_lines lines <> lines.
Proof.
  intros U E.
  rewrite (proj2 (clean_lines_size lines)) in U; [discriminate|].
  now rewrite E.
Qed.

(** X3.  When the pass merges a fence line with the language line after
    it, wherever the two lines stand after lines that the pass keeps, the
    line it emits, the marker followed by the stripped language line, is
    itself a fence line and is not the bare marker.  The pass therefore
    changes every list of lines that holds such a line, in particular its
    own output: a merge is never stable.  At the head of a list the merged
    line is replaced by the bare marker, and the language is lost, unless
    the line after it is again a language line, which is then merged in
    place of the first language. *)
Theorem merge_is_undone_by_next_pass
    (kept : list str) (line next : str) (rest : list str) :
  forallb (fun l => negb (is_fence_line l)) kept = true ->
  is_fence_line line = true ->
  in_languages (lower (strip next)) = true ->
  let merged := FENCE ++ strip next in
  cleaned_lines_of (kept ++ line :: next :: rest)
  = kept ++ merged :: cleaned_lines_of rest /\
  is_fence_line merged = true /\ merged <> FENCE /\
  (forall lines, In merged lines -> cleaned_lines_of lines <> lines) /\
  cleaned_lines_of (cleaned_lines_of (kept ++ line :: next :: rest))
  <> cleaned_lines_of (kept ++ line :: next :: rest) /\
  (forall after,
     cleaned_lines_of (merged :: after)
     = match after with
       | [] => [FENCE]
       | following :: after' =>
           if in_languages (lower (strip following))
           then (FENCE ++ strip following) :: cleaned_lines_of after'
           else FENCE :: cleaned_lines_of after
       end).
Proof.
  intros K F L merged.
  destruct (merged_line_is_fence next L) as [F' Hne].
  fold merged in F', Hne.
  assert (C : forall lines, In merged lines -> cleaned_lines_of lines <> lines).
  { intros lines Hin. rewrite cleaned_lines_of_eq.
    apply unsettled_changes. exact (@unsettled_line merged lines Hin F' Hne). }
  assert (E : cleaned_lines_of (kept ++ line :: next :: rest)
              = kept ++ merged :: cleaned_lines_of rest).
  { rewrite !cleaned_lines_of_eq. clear C.
    induction kept as [|k kept IH].
    - rewrite !app_nil_l, clean_lines_cons, F, L. reflexivity.
    - cbn [forallb] in K. apply andb_true_iff in K as [K1 K2].
      apply negb_true_iff in K1.
      rewrite <- !app_comm_cons, clean_lines_cons, K1, (IH K2). reflexivity. }
  split; [exact E|]. split; [exact F'|]. split; [exact Hne|].
  split; [exact C|]. split.
  - rewrite E. apply C. apply in_or_app. right. left. reflexivity.
  - intros after. rewrite cleaned_lines_of_eq, clean_lines_cons, F'.
    destruct after as [|following after']; [reflexivity|].
    now rewrite !cleaned_lines_of_eq.
Qed.

Lemma merge_is_undone_by_next_pass_witness :
  cleaned_lines_of
    (cleaned_lines_of [py "Example:"; py " ```"; py " TypeScript "; py "rust"])
  <> cleaned_lines_of [py "Example:"; py " ```"; py " TypeScript "; py "rust"].
Proof.
  apply (proj1 (proj2 (proj2 (proj2 (proj2
           (@merge_is_undone_by_next_pass [py "Example:"] (py " ```")
              (py " TypeScript ") [py "rust"] eq_refl eq_refl eq_refl)))))).
Defined.

(** *** Turns *)

Lemma count_users_app (a b : list Message) :
  count_users (a ++ b) = count_users a + count_users b.
Proof. unfold count_users. now rewrite filter_app, length_app. Qed.

Lemma count_users_le_length (a : list Message) : count_users a <= length a.
Proof. unfold count_users. apply filter_length_le. Qed.

(** X4.  The turn count of two conversations put one after the other is
    the sum of their turn counts, and no conversation has more turns than
    messages. *)
Theorem count_turns_app (a b : list Message) :
  count_turns (a ++ b) = count_turns a + count_turns b /\
  count_turns a <= length a.
Proof.
  rewrite !count_turns_users. split.
  - apply count_users_app.
  - apply count_users_le_length.
Qed.

Lemma count_users_skipn_antitone (messages : list Message) (i j : nat) :
  i <= j ->
  count_users (skipn j messages) <= count_users (skipn i messages).
Proof.
  intros H. replace j with ((j - i) + i) by lia.
  rewrite <- skipn_skipn. apply count_users_skipn_le.
Qed.

(** X5.  Asking for more turns gives a longer slice that ends with the
    shorter one: for [1 <= n <= m <= count_turns c] the slice for [m] is
    the slice for [n] with messages put before it, among them exactly
    [m - n] user messages. *)
Theorem filter_last_turns_nested (messages : list Message) (n m : Z) :
  (1 <= n <= m)%Z -> (m <= Z.of_nat (count_turns messages))%Z ->
  exists slice_n slice_m extra,
    filter_last_turns messages n = Returned slice_n /\
    filter_last_turns messages m = Returned slice_m /\
    slice_m = extra ++ slice_n /\
    Z.of_nat (count_users extra) = (m - n)%Z.
Proof.
  intros Hnm Hm.
  destruct (@filter_last_turns_ok messages n) as (i & Hi & _ & Hci & Hri);
    [lia|].
  destruct (@filter_last_turns_ok messages m) as (j & Hj & _ & Hcj & Hrj);
    [lia|].
  destruct (Z.eq_dec n m) as [-> | Hne].
  - exists (skipn i messages), (skipn i messages), [].
    repeat split; auto. simpl. lia.
  - assert (Hji : j <= i).
    { destruct (Nat.le_gt_cases j i) as [H | H]; [exact H|].
      pose proof (@count_users_skipn_antitone messages i j). lia. }
    exists (skipn i messages), (skipn j messages),
      (firstn (i - j) (skipn j messages)).
    assert (E : skipn j messages
                = firstn (i - j) (skipn j messages) ++ skipn i messages).
    { rewrite <- (firstn_skipn (i - j) (skipn j messages)) at 1.
      rewrite skipn_skipn. now replace (i - j + j) with i by lia. }
    repeat split; auto.
    rewrite E in Hcj. rewrite count_users_app in Hcj. lia.
Qed.

Lemma filter_last_turns_nested_witness :
  exists slice_n slice_m extra,
    filter_last_turns
      [mkMessage USER (py "Q1"); mkMessage ASSISTANT (py "A1");
       mkMessage USER (py "Q2"); mkMessage USER (py "Q3")] 1
    = Returned slice_n /\
    filter_last_turns
      [mkMessage USER (py "Q1"); mkMessage ASSISTANT (py "A1");
       mkMessage USER (py "Q2"); mkMessage USER (py "Q3")] 3
    = Returned slice_m /\
    slice_m = extra ++ slice_n /\
    Z.of_nat (count_users extra) = (3 - 1)%Z.
Proof.
  apply filter_last_turns_nested; vm_compute; try split; discriminate.
Defined.

Lemma turn_loop_returns (messages : list Message) (ns : list nat) :
  Forall (fun n => 1 <= n <= count_turns messages) ns ->
  forall st,
    turn_loop messages ns st
    = Returned
        (fst st ++
         map (fun n => (str_of_nat n,
                        generate_xml_text
                          (match filter_last_turns messages (Z.of_nat n) with
                           | Returned slice => slice
                           | Raised _ => []
                           end))) ns,
         snd st ++
         map (fun n => (n,
                        length
                          (match filter_last_turns messages (Z.of_nat n) with
                           | Returned slice => slice
                           | Raised _ => []
                           end))) ns).
Proof.
  induction 1 as [|n ns Hn _ IH]; intros st; simpl.
  - rewrite !app_nil_r. now destruct st.
  - destruct (@filter_last_turns_ok messages (Z.of_nat n))
      as (i & _ & _ & _ & Hr); [lia|].
    rewrite Hr, IH. simpl. now rewrite <- !app_assoc.
Qed.

Lemma combine_map_self (A B : Type) (f : A -> B) (l : list A) :
  combine l (map f l) = map (fun a => (a, f a)) l.
Proof. induction l as [|a l IH]; simpl; [reflexivity | now rewrite IH]. Qed.

(** X6.  The loop of [build_html] over the turn counts never fails: it
    asks [filter_last_turns] only for counts between 1 and the number of
    turns.  With [shown] the smaller of the number of turns and 10, there
    are [shown] slices, the one for the count [n] being what
    [filter_last_turns] returns for [n], with exactly [n] turns.  The
    dictionary holds the text of the whole conversation under [all],
    followed by the text of the slice for [n] under [str(n)] for [n] from
    1 to [shown] and nothing else; the options are the pairs of [n] and
    the length of its slice, in the same order. *)
Theorem turn_data_returns (messages : list Message) :
  let shown := Nat.min (count_turns messages) 10 in
  exists slices,
    length slices = shown /\
    (forall k, k < shown ->
       filter_last_turns messages (Z.of_nat (k + 1))
       = Returned (nth k slices []) /\
       count_turns (nth k slices []) = k + 1) /\
    turn_data messages
    = Returned
        ((py "all", generate_xml_text messages) ::
         map (fun p => (str_of_nat (fst p), generate_xml_text (snd p)))
           (combine (seq 1 shown) slices),
         map (fun p => (fst p, length (snd p)))
           (combine (seq 1 shown) slices)).
Proof.
  intros shown.
  set (slice_of := fun n =>
         match filter_last_turns messages (Z.of_nat n) with
         | Returned slice => slice
         | Raised _ => []
         end).
  exists (map slice_of (seq 1 shown)).
  split; [now rewrite length_map, length_seq|]. split.
  - intros k Hk.
    rewrite (nth_indep _ [] (slice_of 0))
      by (rewrite length_map, length_seq; exact Hk).
    rewrite map_nth, seq_nth by exact Hk.
    replace (1 + k) with (k + 1) by lia.
    destruct (@filter_last_turns_ok messages (Z.of_nat (k + 1)))
      as (i & _ & _ & Hc & Hr); [unfold shown in Hk; lia|].
    unfold slice_of. rewrite Hr. split; [reflexivity|].
    rewrite count_turns_users. lia.
  - unfold turn_data.
    replace (Nat.min (count_turns messages + 1) 11 - 1) with shown
      by (unfold shown; lia).
    rewrite turn_loop_returns.
    + rewrite combine_map_self, !map_map. reflexivity.
    + apply Forall_forall. intros n Hn. apply in_seq in Hn.
      unfold shown in Hn. lia.
Qed.

Lemma turn_data_returns_witness :
  exists slices,
    turn_data [mkMessage USER (py "Q1"); mkMessage ASSISTANT (py "A1");
               mkMessage USER (py "Q2")]
    = Returned
        ((py "all",
          generate_xml_text
            [mkMessage USER (py "Q1"); mkMessage ASSISTANT (py "A1");
             mkMessage USER (py "Q2")]) ::
         map (fun p => (str_of_nat (fst p), generate_xml_text (snd p)))
           (combine (seq 1 2) slices),
         map (fun p => (fst p, length (snd p))) (combine (seq 1 2) slices)) /\
    filter_last_turns
      [mkMessage USER (py "Q1"); mkMessage ASSISTANT (py "A1");
       mkMessage USER (py "Q2")] (Z.of_nat (1 + 1))
    = Returned (nth 1 slices []).
Proof.
  destruct (turn_data_returns
              [mkMessage USER (py "Q1"); mkMessage ASSISTANT (py "A1");
               mkMessage USER (py "Q2")])
    as (slices & _ & H & E).
  exists slices. split; [exact E|].
  apply (H 1). vm_compute. repeat constructor.
Defined.

(** X7.  In [main], once the arguments have passed the checks, the
    handler for [AssertionError] is never reached.  When more turns are
    requested than the conversation has, the run ends at the explicit
    check with the message that names both numbers, before
    [filter_last_turns] is called: the outcome is the same whatever the
    call would do.  Otherwise the call is made and returns: the messages
    for the XML file are its slice, with exactly the requested number of
    turns. *)
Theorem messages_for_xml_after_validation
    (save_xml : option str) (n : Z) (messages : list Message) :
  validate_arguments save_xml (Some n) = Continue tt ->
  (n > Z.of_nat (count_turns messages))%Z /\
  (forall callee,
     messages_for_xml_by callee messages (Some n)
     = Exit1 (ERROR_PREFIX ++ msg_too_many n (count_turns messages)))
  \/
  (n <= Z.of_nat (count_turns messages))%Z /\
  exists slice,
    filter_last_turns messages n = Returned slice /\
    messages_for_xml messages (Some n) = Continue slice /\
    Z.of_nat (count_turns slice) = n.
Proof.
  unfold validate_arguments, messages_for_xml, messages_for_xml_by.
  destruct save_xml as [path|]; [|discriminate].
  destruct (Z.leb_spec n 0) as [|Hpos]; [discriminate | intros _].
  destruct (Z.gtb_spec n (Z.of_nat (count_turns messages))) as [Hgt | Hle].
  - left. split; [lia | reflexivity].
  - right. split; [exact Hle|].
    destruct (@filter_last_turns_ok messages n) as (i & _ & _ & Hc & Hr);
      [lia|].
    exists (skipn i messages). rewrite Hr. repeat split.
    now rewrite count_turns_users.
Qed.

Lemma messages_for_xml_after_validation_witness :
  exists slice,
    messages_for_xml
      [mkMessage USER (py "Q1"); mkMessage ASSISTANT (py "A1");
       mkMessage USER (py "Q2")] (Some 1%Z) = Continue slice /\
    Z.of_nat (count_turns slice) = 1%Z.
Proof.
  destruct (@messages_for_xml_after_validation (Some (py "out.xml")) 1%Z
              [mkMessage USER (py "Q1"); mkMessage ASSISTANT (py "A1");
               mkMessage USER (py "Q2")] eq_refl)
    as [[H _] | [_ (slice & _ & H1 & H2)]].
  - vm_compute in H. discriminate.
  - exists slice. split; assumption.
Defined.

(** *** The serializer and the page *)

Lemma no_newline_app (a b : str) :
  no_newline (a ++ b) = no_newline a && no_newline b.
Proof. apply forallb_app. Qed.

Lemma split_lines_no_newline (l : str) :
  no_newline l = true -> split_lines l = [l].
Proof.
  induction l as [|c l IH]; [reflexivity|].
  simpl. intros H. apply andb_true_iff in H as [Hc Hl].
  apply negb_true_iff in Hc. rewrite Hc, (IH Hl). reflexivity.
Qed.

Lemma split_lines_app_newline (l rest : str) :
  no_newline l = true ->
  split_lines (l ++ NL :: rest) = l :: split_lines rest.
Proof.
  induction l as [|c l IH]; [reflexivity|].
  simpl. intros H. apply andb_true_iff in H as [Hc Hl].
  apply negb_true_iff in Hc. rewrite Hc, (IH Hl). reflexivity.
Qed.

(** Splitting what was joined gives the lines back, when no line holds a
    newline. *)
Lemma split_join (lines : list str) :
  lines <> [] -> forallb no_newline lines = true ->
  split_lines (join_lines lines) = lines.
Proof.
  induction lines as [|l rest IH]; [congruence | intros _ H].
  simpl in H. apply andb_true_iff in H as [Hl Hrest].
  destruct rest as [|l' rest].
  - simpl. now apply split_lines_no_newline.
  - change (join_lines (l :: l' :: rest))
      with (l ++ NL :: join_lines (l' :: rest)).
    rewrite split_lines_app_newline by exact Hl.
    rewrite IH; [reflexivity | discriminate | exact Hrest].
Qed.

Lemma digits_no_newline (d : Decimal.uint) :
  no_newline (py (NilEmpty.string_of_uint d)) = true.
Proof. induction d; simpl; auto. Qed.

Lemma str_of_nat_no_newline (n : nat) : no_newline (str_of_nat n) = true.
Proof. apply digits_no_newline. Qed.

Lemma message_lines_no_newline (idx : nat) (m : Message) :
  single_line m = true ->
  forallb no_newline (message_lines idx m) = true.
Proof.
  unfold single_line. intros H. apply andb_true_iff in H as [Hr Hc].
  unfold message_lines. cbn [forallb].
  repeat rewrite no_newline_app.
  change (DQUOTE :: str_of_nat idx ++ DQUOTE :: py " role=" ++
          DQUOTE :: role m ++ DQUOTE :: py ">")
    with ([DQUOTE] ++ str_of_nat idx ++ [DQUOTE] ++ py " role=" ++
          [DQUOTE] ++ role m ++ [DQUOTE] ++ py ">").
  repeat rewrite no_newline_app.
  rewrite str_of_nat_no_newline, Hr, Hc. reflexivity.
Qed.

Lemma blocks_no_newline (messages : list Message) :
  forallb single_line messages = true ->
  forall idx,
    forallb no_newline
      (flat_map (fun p => message_lines (fst p) (snd p))
         (combine (seq idx (length messages)) messages)) = true.
Proof.
  induction messages as [|m rest IH]; intros H idx; [reflexivity|].
  simpl in H. apply andb_true_iff in H as [Hm Hrest].
  cbn [length seq combine flat_map fst snd].
  rewrite forallb_app, (message_lines_no_newline idx m Hm). simpl.
  now apply IH.
Qed.

Lemma message_lines_inj (idx : nat) (m1 m2 : Message) (rest1 rest2 : list str) :
  message_lines idx m1 ++ rest1 = message_lines idx m2 ++ rest2 ->
  m1 = m2 /\ rest1 = rest2.
Proof.
  unfold message_lines. intros H.
  change (?a :: ?b :: ?c :: ?d :: [?e]) with ([a; b; c; d; e]) in H.
  simpl app in H.
  injection H as Hopen Hcontent Hrest.
  repeat first [apply app_inv_head in Hopen | injection Hopen as Hopen].
  apply app_inv_tail in Hopen.
  repeat first [apply app_inv_head in Hcontent | injection Hcontent as Hcontent].
  split; [|exact Hrest].
  destruct m1, m2. simpl in *. congruence.
Qed.

Lemma blocks_inj (c1 : list Message) :
  forall c2 idx,
    flat_map (fun p => message_lines (fst p) (snd p))
      (combine (seq idx (length c1)) c1) ++ [py "</conversation>"]
    = flat_map (fun p => message_lines (fst p) (snd p))
        (combine (seq idx (length c2)) c2) ++ [py "</conversation>"] ->
    c1 = c2.
Proof.
  induction c1 as [|m1 rest1 IH]; intros [|m2 rest2] idx H.
  - reflexivity.
  - cbn [length seq combine flat_map fst snd] in H.
    unfold message_lines in H. simpl app in H.
    injection H as H _. vm_compute in H. discriminate.
  - cbn [length seq combine flat_map fst snd] in H.
    unfold message_lines in H. simpl app in H.
    injection H as H _. vm_compute in H. discriminate.
  - cbn [length seq combine flat_map fst snd] in H.
    rewrite <- !app_assoc in H.
    apply message_lines_inj in H as [-> H].
    f_equal. exact (IH _ _ H).
Qed.

(** X8.  Two conversations whose roles and contents hold no newline and
    that serialize to the same text are the same conversation. *)
Theorem generate_xml_text_injective (c1 c2 : list Message) :
  forallb single_line c1 = true -> forallb single_line c2 = true ->
  generate_xml_text c1 = generate_xml_text c2 ->
  c1 = c2.
Proof.
  intros H1 H2 E. unfold generate_xml_text, xml_lines in E.
  rewrite !xml_loop_eq in E.
  assert (S : forall c, forallb single_line c = true ->
              split_lines
                (join_lines
                   (([py "<conversation>"] ++
                     flat_map (fun p => message_lines (fst p) (snd p))
                       (combine (seq 1 (length c)) c)) ++
                    [py "</conversation>"]))
              = ([py "<conversation>"] ++
                 flat_map (fun p => message_lines (fst p) (snd p))
                   (combine (seq 1 (length c)) c)) ++
                [py "</conversation>"]).
  { intros c Hc. apply split_join; [discriminate|].
    rewrite !forallb_app, (blocks_no_newline c Hc 1). reflexivity. }
  apply (f_equal split_lines) in E.
  rewrite (S c1 H1), (S c2 H2) in E.
  simpl app in E. injection E as E.
  exact (blocks_inj _ _ _ E).
Qed.

Lemma generate_xml_text_injective_witness :
  skipn 2 [mkMessage USER (py "a < b"); mkMessage ASSISTANT (py "yes");
           mkMessage USER (py "b > a")]
  = [mkMessage USER (py "b > a")].
Proof.
  apply generate_xml_text_injective; reflexivity.
Defined.

(** X9.  Without that restriction the text does not determine the
    conversation: the content is written as it is, so one message whose
    content holds the closing and opening lines of an element serializes
    like two messages. *)
Theorem generate_xml_text_ambiguous :
  exists c1 c2 : list Message,
    length c1 = 1 /\ length c2 = 2 /\
    generate_xml_text c1 = generate_xml_text c2.
Proof.
  exists [mkMessage USER
            (join_lines
               [py "a"; py "    </content>"; py "  </message>";
                py "  <message index=" ++ DQUOTE :: py "2" ++ DQUOTE ::
                  py " role=" ++ DQUOTE :: py "user" ++ DQUOTE :: py ">";
                py "    <content>"; py "      b"])],
         [mkMessage USER (py "a"); mkMessage USER (py "b")].
  repeat split.
Qed.

Lemma contains_cons_other (c : N) (s sub : str) :
  startswith (c :: s) sub = false -> contains (c :: s) sub = contains s sub.
Proof. intros H. simpl contains. unfold startswith in H |- *. fold startswith in *. now rewrite H. Qed.

(** Past a copied code point that is not the first of the pattern, the
    output starts with the rest of the pattern only if the input does. *)
Lemma replace_keeps_tail (q : str) :
  forallb (fun c => negb (N.eqb c 60) && negb (N.eqb c 38)) q = true ->
  forall s,
    startswith (replace_from TEXTAREA_END TEXTAREA_END_ESCAPED 0 s) q
    = startswith s q.
Proof.
  induction q as [|x q IH]; intros Hq s; [reflexivity|].
  simpl in Hq. apply andb_true_iff in Hq as [Hx Hq].
  apply andb_true_iff in Hx as [Hlt Hamp].
  apply negb_true_iff in Hlt, Hamp.
  destruct s as [|c s]; [reflexivity|].
  cbn [replace_from].
  destruct (startswith (c :: s) TEXTAREA_END) eqn:M.
  - assert (c = 60%N).
    { apply startswith_app in M as [t M]. now injection M. }
    subst c. cbn [startswith].
    change (TEXTAREA_END_ESCAPED ++ ?r)
      with (38%N :: (py "lt;/textarea&gt;" ++ r)).
    cbv iota.
    rewrite (N.eqb_sym 38 x), Hamp, (N.eqb_sym 60 x), Hlt. reflexivity.
  - cbn [startswith]. now rewrite IH.
Qed.

Lemma replace_no_textarea_end (s : str) :
  forall skip,
    contains (replace_from TEXTAREA_END TEXTAREA_END_ESCAPED skip s)
      TEXTAREA_END = false.
Proof.
  induction s as [|c s IH]; intros skip; [reflexivity|].
  cbn [replace_from]. destruct skip as [|k]; [|apply IH].
  destruct (startswith (c :: s) TEXTAREA_END) eqn:M.
  - change (TEXTAREA_END_ESCAPED ++
            replace_from TEXTAREA_END TEXTAREA_END_ESCAPED
              (length TEXTAREA_END - 1) s)
      with (38%N :: 108%N :: 116%N :: 59%N :: 47%N :: 116%N :: 101%N ::
            120%N :: 116%N :: 97%N :: 114%N :: 101%N :: 97%N :: 38%N ::
            103%N :: 116%N :: 59%N ::
            replace_from TEXTAREA_END TEXTAREA_END_ESCAPED
              (length TEXTAREA_END - 1) s).
    repeat (rewrite contains_cons_other by reflexivity).
    apply IH.
  - rewrite contains_cons_other; [apply IH|].
    change TEXTAREA_END with (60%N :: py "/textarea>") in M |- *.
    cbn [startswith] in M |- *.
    rewrite replace_keeps_tail by reflexivity. exact M.
Qed.

(** X10.  The text that [build_html] puts inside the [textarea] element
    never holds the closing tag of that element, whatever the messages
    contain. *)
Theorem textarea_text_never_closes (xml_text : str) :
  contains (textarea_text xml_text) TEXTAREA_END = false.
Proof. apply replace_no_textarea_end. Qed.

Lemma firstn_no_newline (n : nat) (s : str) :
  no_newline s = true -> no_newline (firstn n s) = true.
Proof.
  revert n; induction s as [|c s IH]; intros [|n]; simpl; auto.
  intros H. apply andb_true_iff in H as [Hc Hs]. now rewrite Hc, IH.
Qed.

Lemma split_lines_first (s : str) :
  exists first_line,
    no_newline first_line = true /\
    nth 0 (split_lines s) [] = first_line /\
    (s = first_line /\ split_lines s = [first_line] \/
     exists rest,
       s = first_line ++ NL :: rest /\
       split_lines s = first_line :: split_lines rest).
Proof.
  induction s as [|c s (l & Hn & H0 & H)].
  - exists []. repeat split. left. split; reflexivity.
  - cbn [split_lines]. destruct (N.eqb c NL) eqn:E.
    + apply N.eqb_eq in E. subst c. exists [].
      split; [reflexivity|]. split; [reflexivity|].
      right. exists s. split; reflexivity.
    + exists (c :: l). split; [simpl; rewrite E; exact Hn|].
      destruct H as [[Hs Hsp] | (rest & Hs & Hsp)]; rewrite Hsp.
      * split; [reflexivity|]. left. split; [now rewrite Hs at 1 | reflexivity].
      * split; [reflexivity|]. right. exists rest.
        split; [now rewrite Hs at 1 | reflexivity].
Qed.

(** X11.  The sidebar preview of a message is given by the first line of
    its content, the part before the first newline.  A content without a
    newline is shown whole when it has at most 60 code points, otherwise
    its first 60 code points are shown, followed by three dots.  A content
    with a newline gives the first 60 code points of its first line,
    always followed by three dots.  The preview never has more than 63
    code points. *)
Theorem nav_preview_shape (content : str) :
  exists first_line,
    no_newline first_line = true /\
    (content = first_line /\
     nav_preview content
     = (if length content <=? 60 then content
        else firstn 60 content ++ py "...")
     \/
     exists rest,
       content = first_line ++ NL :: rest /\
       nav_preview content = firstn 60 first_line ++ py "...") /\
    length (nav_preview content) <= 63.
Proof.
  destruct (split_lines_first content) as (fl & Hn & H0 & H).
  exists fl. split; [exact Hn|].
  unfold nav_preview. rewrite H0.
  assert (Hlen : length (firstn 60 fl) <= 60) by (rewrite length_firstn; lia).
  destruct H as [[Hs Hsp] | (rest & Hs & Hsp)]; rewrite Hsp.
  - change (1 <? length [fl]) with false. rewrite orb_false_r.
    rewrite <- Hs in *.
    destruct (Nat.ltb_spec 60 (length content)) as [Hlong | Hshort];
      destruct (Nat.leb_spec (length content) 60) as [Hle | Hgt]; try lia.
    + split; [left; split; reflexivity|].
      rewrite length_app. change (length (py "...")) with 3. lia.
    + rewrite firstn_all2 by exact Hle.
      split; [left; split; reflexivity | lia].
  - assert (Hmany : (1 <? length (fl :: split_lines rest)) = true).
    { apply Nat.ltb_lt. pose proof (split_lines_nonempty rest).
      cbn [length]. destruct (split_lines rest); [contradiction|].
      cbn [length]. lia. }
    rewrite Hmany, orb_true_r.
    split; [right; exists rest; split; [exact Hs | reflexivity]|].
    rewrite length_app. change (length (py "...")) with 3. lia.
Qed.

(** *** Output paths *)

Lemma take_id_chars (s : str) : forallb is_id_char (take_id s) = true.
Proof.
  induction s as [|c s IH]; [reflexivity|].
  simpl. destruct (is_id_char c) eqn:E; [simpl; now rewrite E | reflexivity].
Qed.

Lemma search_share_id_chars (url id : str) :
  search_share_id url = Some id ->
  id <> [] /\ forallb is_id_char id = true.
Proof.
  induction url as [|c url IH].
  - simpl. discriminate.
  - cbn [search_share_id].
    destruct (startswith (c :: url) (py "/share/")).
    + pose proof (take_id_chars (skipn 7 (c :: url))) as Hid.
      destruct (take_id (skipn 7 (c :: url))) as [|x xs]; [exact IH|].
      intros H. injection H as <-. split; [discriminate | exact Hid].
    + exact IH.
Qed.

Lemma firstn_forallb (A : Type) (f : A -> bool) (n : nat) (l : list A) :
  forallb f l = true -> forallb f (firstn n l) = true.
Proof.
  revert n; induction l as [|x l IH]; intros [|n]; simpl; auto.
  intros H. apply andb_true_iff in H as [Hx Hl]. now rewrite Hx, IH.
Qed.

Lemma id_char_no_slash (s : str) :
  forallb is_id_char s = true ->
  forallb (fun c => negb (N.eqb c 47)) s = true.
Proof.
  induction s as [|c s IH]; [reflexivity|].
  simpl. intros H. apply andb_true_iff in H as [Hc Hs].
  rewrite (IH Hs), andb_true_r.
  destruct (N.eqb_spec c 47) as [-> | _]; [discriminate | reflexivity].
Qed.

Lemma detect_platform_names (url platform : str) :
  detect_platform url = Returned platform ->
  platform = py "chatgpt" \/ platform = py "claude" \/ platform = py "grok".
Proof.
  unfold detect_platform.
  destruct (contains url (py "chatgpt.com/share/"));
    [intros H; injection H; auto|].
  destruct (contains url (py "claude.ai/share/"));
    [intros H; injection H; auto|].
  destruct (contains url (py "grok.com/share/") ||
            contains url (py "x.ai/share/"));
    [intros H; injection H; auto | discriminate].
Qed.

(** X12.  [derive_output_path] raises exactly the error of
    [detect_platform].  Otherwise the file name is the platform, an
    underscore, an identifier and [.html], where the identifier is the
    word [conversation] or at most 12 code points of the class
    [a-f0-9-]; no code point of the name is a slash, so the file lies in
    the current directory. *)
Theorem derive_output_path_shape (url : str) :
  match detect_platform url with
  | Raised e => derive_output_path url = Raised e
  | Returned platform =>
      exists id,
        derive_output_path url
        = Returned (platform ++ py "_" ++ id ++ py ".html") /\
        (id = py "conversation" \/
         1 <= length id <= 12 /\ forallb is_id_char id = true) /\
        forallb (fun c => negb (N.eqb c 47))
          (platform ++ py "_" ++ id ++ py ".html") = true
  end.
Proof.
  unfold derive_output_path.
  destruct (detect_platform url) as [platform|e] eqn:D; [|reflexivity].
  simpl bind.
  assert (Hp : forallb (fun c => negb (N.eqb c 47)) platform = true).
  { destruct (detect_platform_names _ D) as [-> | [-> | ->]]; reflexivity. }
  destruct (search_share_id url) as [id|] eqn:S.
  - apply search_share_id_chars in S as [Hne Hid].
    exists (firstn 12 id).
    pose proof (firstn_forallb is_id_char 12 id Hid) as Hid'.
    split; [reflexivity|]. split.
    + right. split; [|exact Hid'].
      rewrite length_firstn. destruct id; [contradiction | cbn [length]; lia].
    + rewrite !forallb_app, Hp, (id_char_no_slash _ Hid'). reflexivity.
  - exists (py "conversation"). split; [reflexivity|]. split; [now left|].
    rewrite !forallb_app, Hp. reflexivity.
Qed.

(** *** What the extractors give *)

Lemma contains_app_l (x y p : str) :
  contains x p = true -> contains (x ++ y) p = true.
Proof.
  intros H. apply contains_infix in H as (a & b & ->).
  apply contains_infix. exists a, (b ++ y). now rewrite <- !app_assoc.
Qed.

Lemma notice_has_attachments (role text : str) (before later : list Message) :
  has_attachments (before ++ [mkMessage role (NOTICE ++ text)] ++ later) = true.
Proof.
  unfold has_attachments. apply existsb_exists.
  exists (mkMessage role (NOTICE ++ text)). split.
  - apply in_or_app. right. left. reflexivity.
  - cbn [content]. apply orb_true_iff. left.
    unfold lower. rewrite map_app. apply contains_app_l. reflexivity.
Qed.

Lemma existsb_first (A : Type) (f : A -> bool) (l : list A) :
  existsb f l = true ->
  exists pre c post,
    l = pre ++ c :: post /\ f c = true /\ existsb f pre = false.
Proof.
  induction l as [|x l IH]; simpl; [discriminate|].
  destruct (f x) eqn:E.
  - intros _. exists [], x, l. auto.
  - simpl. intros H. destruct (IH H) as (pre & c & post & -> & Hc & Hpre).
    exists (x :: pre), c, post. simpl. rewrite E. auto.
Qed.

(** X13.  When the Claude or Grok extractor has detected hidden
    attachments and the page has a user candidate, the extractor returns
    a conversation, and [build_html] finds an attachment reference in it
    and shows its warning. *)
Theorem notice_triggers_warning (md : node -> str) (soup : node) :
  (claude_has_hidden_files soup = true ->
   existsb (fun c => str_eqb (snd c) USER) (all_content_divs soup) = true ->
   exists messages,
     extract_claude_conversation md soup = Returned messages /\
     has_attachments messages = true) /\
  (grok_has_hidden_attachments soup = true ->
   existsb (fun b => match grok_role (snd b) with
                     | Some r => str_eqb r USER
                     | None => false
                     end) (message_bubbles soup) = true ->
   exists messages,
     extract_grok_conversation md soup = Returned messages /\
     has_attachments messages = true).
Proof.
  split; intros Hh Hu;
    apply existsb_first in Hu as (pre & c & post & Hsplit & Hc & Hpre).
  - destruct c as [div role]. simpl in Hc.
    destruct (notes_fold_split (claude_has_hidden_files soup)
                (claude_body md (claude_has_hidden_files soup))
                (fun c => Some (snd c)) (fun c => markdown_of md (fst c))
                (fun st c => match c with (d, r) => eq_refl end)
                pre (div, role) post (eq_refl (Some role)))
      as [later E].
    cbv beta iota in E. rewrite Hh, Hc, Hpre in E.
    change (emitted (true && true && negb false) ?r ?t)
      with [mkMessage r (NOTICE ++ t)] in E.
    unfold extract_claude_conversation, claude_messages.
    rewrite Hsplit, Hh, E.
    exists (fst (fold_left (claude_body md true) pre ([], false)) ++
            [mkMessage role (NOTICE ++ markdown_of md div)] ++ later).
    split.
    + destruct (fst (fold_left (claude_body md true) pre ([], false)));
        reflexivity.
    + apply (notice_has_attachments role (markdown_of md div)).
  - destruct c as [bubble parent]. simpl in Hc.
    destruct (grok_role parent) as [role|] eqn:R; [|discriminate].
    destruct (notes_fold_split (grok_has_hidden_attachments soup)
                (grok_body md (grok_has_hidden_attachments soup))
                (fun b => grok_role (snd b)) (fun b => markdown_of md (fst b))
                (fun st b => eq_refl) pre (bubble, parent) post R)
      as [later E].
    cbv beta iota in E. rewrite Hh, Hc, Hpre in E.
    change (emitted (true && true && negb false) ?r ?t)
      with [mkMessage r (NOTICE ++ t)] in E.
    unfold extract_grok_conversation, grok_messages.
    rewrite Hsplit, Hh, E.
    exists (fst (fold_left (grok_body md true) pre ([], false)) ++
            [mkMessage role (NOTICE ++ markdown_of md bubble)] ++ later).
    split.
    + destruct (fst (fold_left (grok_body md true) pre ([], false)));
        reflexivity.
    + apply (notice_has_attachments role (markdown_of md bubble)).
Qed.

Lemma notice_triggers_warning_witness :
  let soup :=
    Tag DOCUMENT [] []
      [Tag (py "div") [py "items-end"] []
         [Tag (py "div") [py "message-bubble"] [] [NavigableString (py "look")]];
       Tag (py "section") [py "inline-media-container"] [] []] in
  exists messages,
    extract_grok_conversation plain_md soup = Returned messages /\
    has_attachments messages = true.
Proof.
  intros soup.
  apply (proj2 (notice_triggers_warning plain_md soup)); reflexivity.
Defined.

Lemma forallb_and (A : Type) (f g : A -> bool) (l : list A) :
  forallb (fun x => f x && g x) l = true ->
  forallb f l = true /\ forallb g l = true.
Proof.
  induction l as [|x l IH]; simpl; [auto|].
  intros H. apply andb_true_iff in H as [H Hl].
  apply andb_true_iff in H as [Hf Hg].
  destruct (IH Hl) as [-> ->]. now rewrite Hf, Hg.
Qed.

Lemma fold_left_invariant (A B : Type) (f : A -> B -> A)
    (P : A -> Prop) (Q : B -> Prop) :
  (forall a b, Q b -> P a -> P (f a b)) ->
  forall l, Forall Q l -> forall a, P a -> P (fold_left f l a).
Proof.
  intros Hstep l Hl. induction Hl as [|b l Hb _ IH]; intros a Ha; simpl; auto.
Qed.

Lemma role_well_formed (role text : str) :
  role = USER \/ role = ASSISTANT -> nonempty text = true ->
  well_formed (mkMessage role text) = true.
Proof.
  intros [-> | ->] H; unfold well_formed, is_user, is_assistant; simpl;
    now rewrite H.
Qed.

Lemma role_test (role : str) :
  str_eqb role USER || str_eqb role ASSISTANT = true ->
  role = USER \/ role = ASSISTANT.
Proof.
  intros H. apply orb_true_iff in H as [H | H]; apply str_eqb_eq in H; auto.
Qed.

Lemma clean_is_stripped (t : str) :
  stripped (clean_markdown_code_blocks t) = true.
Proof. unfold stripped. apply str_eqb_eq, clean_stripped. Qed.

Lemma strip_is_stripped (t : str) : stripped (strip t) = true.
Proof. unfold stripped. apply str_eqb_eq, strip_idem. Qed.

Lemma tidy_append (messages : list Message) (role text : str) :
  forallb tidy messages = true ->
  role = USER \/ role = ASSISTANT ->
  nonempty text = true -> stripped text = true ->
  forallb tidy (messages ++ [mkMessage role text]) = true.
Proof.
  intros Hm Hr Hn Hs. rewrite forallb_app, Hm. cbn [forallb andb].
  unfold tidy. cbn [content].
  now rewrite (role_well_formed text Hr Hn), Hs.
Qed.

Lemma emitted_well_formed (notice_due : bool) (role text : str) :
  role = USER \/ role = ASSISTANT ->
  forallb well_formed (emitted notice_due role text) = true.
Proof.
  intros Hr. unfold emitted. destruct notice_due.
  - cbn [forallb]. now rewrite (role_well_formed (NOTICE ++ text) Hr eq_refl).
  - destruct (nonempty text) eqn:E; [|reflexivity].
    cbn [forallb]. now rewrite (role_well_formed text Hr E).
Qed.

Lemma emitted_tidy (role text : str) :
  role = USER \/ role = ASSISTANT -> stripped text = true ->
  forallb tidy (emitted false role text) = true.
Proof.
  intros Hr Hs. unfold emitted.
  destruct (nonempty text) eqn:E; [|reflexivity].
  apply (@tidy_append [] role text eq_refl Hr E Hs).
Qed.

Lemma claude_role_cases (div : node) (role : str) :
  claude_role div = Some role -> role = USER \/ role = ASSISTANT.
Proof.
  unfold claude_role.
  destruct (has_class (py "!font-user-message") div);
    [intros H; injection H; auto|].
  destruct (has_class (py "standard-markdown") div &&
            negb (has_class (py "font-claude-response") div));
    [intros H; injection H; auto | discriminate].
Qed.

Lemma grok_role_cases (parent : node) (role : str) :
  grok_role parent = Some role -> role = USER \/ role = ASSISTANT.
Proof.
  unfold grok_role.
  destruct (has_class (py "items-end") parent);
    [intros H; injection H; auto|].
  destruct (has_class (py "items-start") parent);
    [intros H; injection H; auto | discriminate].
Qed.

Lemma all_content_divs_roles (soup : node) :
  Forall (fun c => snd c = USER \/ snd c = ASSISTANT) (all_content_divs soup).
Proof.
  apply Forall_forall. intros [div role] Hin.
  unfold all_content_divs in Hin. apply in_flat_map in Hin as (d & _ & Hin).
  destruct (claude_role d) as [r|] eqn:R; [|contradiction].
  destruct Hin as [Hin | []]. injection Hin as _ <-.
  exact (claude_role_cases d R).
Qed.

Section ExtractorInvariants.

Variable number : Type.
Variable number_truthy : number -> bool.
Variable json_loads : str -> outcome (json number).
Variable py_repr : json number -> str.
Variable md : node -> str.

(** The state of the Claude and Grok loops: the messages are well
    formed, and tidy as long as no notice is due. *)
Lemma note_and_append_well_formed (has_hidden : bool) (role text : str)
    (st : list Message * bool) :
  role = USER \/ role = ASSISTANT ->
  forallb well_formed (fst st) = true ->
  forallb well_formed (fst (note_and_append has_hidden role text st)) = true.
Proof.
  destruct st as [messages added]. intros Hr Hm. simpl fst in Hm.
  rewrite note_and_append_eq. simpl fst.
  now rewrite forallb_app, Hm, emitted_well_formed.
Qed.

Lemma note_and_append_tidy (role text : str) (st : list Message * bool) :
  role = USER \/ role = ASSISTANT -> stripped text = true ->
  forallb tidy (fst st) = true ->
  forallb tidy (fst (note_and_append false role text st)) = true.
Proof.
  destruct st as [messages added]. intros Hr Hs Hm. simpl fst in Hm.
  rewrite note_and_append_eq. simpl fst.
  rewrite forallb_app, Hm. exact (@emitted_tidy role text Hr Hs).
Qed.

Lemma claude_messages_invariant (soup : node) :
  forallb well_formed (claude_messages md soup) = true /\
  (claude_has_hidden_files soup = false ->
   forallb tidy (claude_messages md soup) = true).
Proof.
  unfold claude_messages. split; [|intros ->].
  - apply (@fold_left_invariant _ _
             (claude_body md (claude_has_hidden_files soup))
             (fun st => forallb well_formed (fst st) = true)
             (fun c => snd c = USER \/ snd c = ASSISTANT));
      [| apply all_content_divs_roles | reflexivity].
    intros st [div role] Hr Hst. now apply note_and_append_well_formed.
  - apply (@fold_left_invariant _ _ (claude_body md false)
             (fun st => forallb tidy (fst st) = true)
             (fun c => snd c = USER \/ snd c = ASSISTANT));
      [| apply all_content_divs_roles | reflexivity].
    intros st [div role] Hr Hst.
    apply note_and_append_tidy; auto. apply clean_is_stripped.
Qed.

Lemma grok_messages_invariant (soup : node) :
  forallb well_formed (grok_messages md soup) = true /\
  (grok_has_hidden_attachments soup = false ->
   forallb tidy (grok_messages md soup) = true).
Proof.
  unfold grok_messages. split; [|intros ->].
  - apply (@fold_left_invariant _ _
             (grok_body md (grok_has_hidden_attachments soup))
             (fun st => forallb well_formed (fst st) = true)
             (fun _ => True));
      [| apply Forall_forall; auto | reflexivity].
    intros st b _ Hst. unfold grok_body.
    destruct (grok_role (snd b)) as [role|] eqn:R; [|exact Hst].
    apply note_and_append_well_formed; [exact (grok_role_cases _ R) | exact Hst].
  - apply (@fold_left_invariant _ _ (grok_body md false)
             (fun st => forallb tidy (fst st) = true)
             (fun _ => True));
      [| apply Forall_forall; auto | reflexivity].
    intros st b _ Hst. unfold grok_body.
    destruct (grok_role (snd b)) as [role|] eqn:R; [|exact Hst].
    apply note_and_append_tidy;
      [exact (grok_role_cases _ R) | apply clean_is_stripped | exact Hst].
Qed.

Lemma chatgpt_primary_tidy (soup : node) :
  forallb tidy (chatgpt_primary md soup) = true.
Proof.
  unfold chatgpt_primary.
  apply (@fold_left_invariant _ _ (chatgpt_body md)
           (fun messages => forallb tidy messages = true) (fun _ => True));
    [| apply Forall_forall; auto | reflexivity].
  intros messages div _ Hm. unfold chatgpt_body.
  destruct (str_eqb _ USER || str_eqb _ ASSISTANT) eqn:R; [|exact Hm].
  simpl negb. cbv iota.
  destruct (nonempty (markdown_of md (content_div_of div))) eqn:E; [|exact Hm].
  apply tidy_append; auto using role_test. apply clean_is_stripped.
Qed.

Lemma bind_returned (A B : Type) (c : outcome A) (k : A -> outcome B) (b : B) :
  bind c k = Returned b -> exists a, c = Returned a /\ k a = Returned b.
Proof. destruct c as [a|e]; simpl; [eauto | discriminate]. Qed.

Lemma node_body_tidy (messages messages' : list Message)
    (node_data : json number) :
  node_body number_truthy py_repr messages node_data = Returned messages' ->
  forallb tidy messages = true -> forallb tidy messages' = true.
Proof.
  unfold node_body. intros H Hm.
  repeat match goal with
    | H : bind _ _ = Returned _ |- _ =>
        apply bind_returned in H as (? & _ & H); cbv beta in H
    | H : (if ?b then _ else _) = Returned _ |- _ => destruct b eqn:?
    | H : match ?x with JNone => _ | _ => _ end = Returned _ |- _ =>
        destruct x
    | H : Returned _ = Returned _ |- _ => injection H as <-
    end;
    try exact Hm; try discriminate.
  apply tidy_append; auto using strip_is_stripped.
  apply role_test.
  match goal with
  | H : negb ?b = false |- ?b = true => now apply negb_false_iff in H
  end.
Qed.

Lemma node_loop_tidy (values : list (json number)) :
  forall messages,
    forallb tidy messages = true ->
    forallb tidy (fst (node_loop number_truthy py_repr values messages)) = true.
Proof.
  induction values as [|v rest IH]; intros messages Hm; simpl; [exact Hm|].
  destruct (node_body number_truthy py_repr messages v) eqn:E; [|exact Hm].
  apply IH. exact (node_body_tidy _ _ E Hm).
Qed.

Lemma script_body_tidy (s : str) (messages : list Message) :
  forallb tidy messages = true ->
  forallb tidy
    (flow_messages (script_body number_truthy json_loads py_repr s messages))
  = true.
Proof.
  intros Hm. unfold script_body.
  destruct (json_loads s) as [data|e0]; [|exact Hm].
  destruct (mapping_values number_truthy data) as [[values|]|e];
    try exact Hm.
  pose proof (node_loop_tidy values messages Hm) as Hl.
  destruct (node_loop number_truthy py_repr values messages)
    as [messages' [e|]]; simpl in *; [exact Hl|].
  destruct messages'; exact Hl.
Qed.

Lemma script_loop_tidy (scripts : list node) :
  forall messages,
    forallb tidy messages = true ->
    forallb tidy
      (flow_messages
         (script_loop number_truthy json_loads py_repr scripts messages))
    = true.
Proof.
  induction scripts as [|script rest IH]; intros messages Hm; simpl;
    [exact Hm|].
  destruct (string_of script) as [[|c s]|]; try now apply IH.
  pose proof (script_body_tidy (c :: s) messages Hm) as Hb.
  destruct (script_body number_truthy json_loads py_repr (c :: s) messages)
    as [m | m | e m]; simpl in Hb; [now apply IH | exact Hb |].
  destruct (caught e); [now apply IH | exact Hb].
Qed.

Lemma chatgpt_returned_tidy (soup : node) (messages : list Message) :
  extract_conversation_from_html number_truthy json_loads py_repr md soup
  = Returned messages ->
  forallb tidy messages = true.
Proof.
  unfold extract_conversation_from_html, chatgpt_collect.
  pose proof (chatgpt_primary_tidy soup) as Hp.
  destruct (chatgpt_primary md soup) as [|m ms].
  - pose proof (script_loop_tidy (script_tags soup) [] eq_refl) as Hs.
    destruct (script_loop number_truthy json_loads py_repr (script_tags soup) [])
      as [l | l | e l]; simpl in Hs.
    + destruct l; [discriminate|]. intros H. injection H as <-. exact Hs.
    + intros H. injection H as <-. exact Hs.
    + discriminate.
  - intros H. injection H as <-. exact Hp.
Qed.

(** X14.  Every message of a conversation that an extractor returns has
    the role user or assistant and a content that is not empty. *)
Theorem extracted_messages_well_formed (soup : node) :
  (forall messages,
      extract_conversation_from_html number_truthy json_loads py_repr md soup
      = Returned messages ->
      forallb well_formed messages = true) /\
  (forall messages,
      extract_claude_conversation md soup = Returned messages ->
      forallb well_formed messages = true) /\
  (forall messages,
      extract_grok_conversation md soup = Returned messages ->
      forallb well_formed messages = true).
Proof.
  repeat split; intros messages H.
  - exact (proj1 (forallb_and _ _ _ (chatgpt_returned_tidy _ H))).
  - unfold extract_claude_conversation in H.
    pose proof (proj1 (claude_messages_invariant soup)) as I.
    destruct (claude_messages md soup); [discriminate|].
    injection H as <-. exact I.
  - unfold extract_grok_conversation in H.
    pose proof (proj1 (grok_messages_invariant soup)) as I.
    destruct (grok_messages md soup); [discriminate|].
    injection H as <-. exact I.
Qed.

(** X15.  The contents that [extract_conversation_from_html] returns
    have no white space at either end; the same holds for the Claude and
    the Grok extractor on a page where no hidden attachment was
    detected. *)
Theorem extracted_contents_stripped (soup : node) :
  (forall messages,
      extract_conversation_from_html number_truthy json_loads py_repr md soup
      = Returned messages ->
      forallb (fun m => stripped (content m)) messages = true) /\
  (claude_has_hidden_files soup = false ->
   forall messages,
     extract_claude_conversation md soup = Returned messages ->
     forallb (fun m => stripped (content m)) messages = true) /\
  (grok_has_hidden_attachments soup = false ->
   forall messages,
     extract_grok_conversation md soup = Returned messages ->
     forallb (fun m => stripped (content m)) messages = true).
Proof.
  repeat split.
  - intros messages H.
    exact (proj2 (forallb_and _ _ _ (chatgpt_returned_tidy _ H))).
  - intros Hh messages H. unfold extract_claude_conversation in H.
    pose proof (proj2 (claude_messages_invariant soup) Hh) as I.
    destruct (claude_messages md soup); [discriminate|].
    injection H as <-. exact (proj2 (forallb_and _ _ _ I)).
  - intros Hh messages H. unfold extract_grok_conversation in H.
    pose proof (proj2 (grok_messages_invariant soup) Hh) as I.
    destruct (grok_messages md soup); [discriminate|].
    injection H as <-. exact (proj2 (forallb_and _ _ _ I)).
Qed.

End ExtractorInvariants.

Lemma extracted_messages_well_formed_witness :
  forallb well_formed
    [mkMessage USER (py "Hi"); mkMessage ASSISTANT (py "Hello")] = true.
Proof.
  apply (proj1 (proj2
    (@extracted_messages_well_formed Z (fun z => negb (Z.eqb z 0))
       (fun _ => Raised JSONDecodeError) (fun _ => []) plain_md
       (Tag DOCUMENT [] []
          [Tag (py "div") [py "!font-user-message"] []
             [NavigableString (py " Hi ")];
           Tag (py "div") [py "standard-markdown"] []
             [NavigableString (py "Hello")]])))).
  reflexivity.
Defined.

Lemma extracted_contents_stripped_witness :
  forallb (fun m => stripped (content m))
    [mkMessage USER (py "Hi"); mkMessage ASSISTANT (py "Hello")] = true.
Proof.
  apply (proj1
    (@extracted_contents_stripped Z (fun z => negb (Z.eqb z 0))
       (fun _ => Raised JSONDecodeError) (fun _ => []) plain_md
       (Tag DOCUMENT [] []
          [Tag (py "div") [] [(ROLE_ATTR, py "user")]
             [NavigableString (py " Hi ")];
           Tag (py "div") [] [(ROLE_ATTR, py "assistant")]
             [Tag (py "div") [py "prose"] [] [NavigableString (py "Hello")];
              Tag (py "button") [] [] [NavigableString (py "Copy")]]]))).
  reflexivity.
Defined.

(** *** The fragment handed to the converter *)

Lemma node_induction (P : node -> Prop) :
  (forall text, P (NavigableString text)) ->
  (forall name classes attrs contents,
      Forall P contents -> P (Tag name classes attrs contents)) ->
  forall n, P n.
Proof.
  intros Htext Htag. fix IH 1. intros [text | name classes attrs contents].
  - apply Htext.
  - apply Htag. induction contents as [|c cs IHcs]; constructor.
    + apply IH.
    + exact IHcs.
Qed.

Lemma descendants_tag (name : str) (classes : list str)
    (attrs : list (str * str)) (contents : list node) :
  descendants (Tag name classes attrs contents)
  = flat_map (fun c => c :: descendants c) contents.
Proof.
  unfold descendants. simpl.
  generalize (Tag name classes attrs contents) as parent. intros parent.
  induction contents as [|c cs IH]; [reflexivity|].
  simpl. rewrite map_app. now rewrite IH.
Qed.

(** A test that looks at the name and the classes of a node only. *)
Lemma prune_keeps_test (q : node -> bool) (n : node) :
  is_button (prune q n) = is_button n /\
  is_copy_element (prune q n) = is_copy_element n.
Proof. destruct n; split; reflexivity. Qed.

Lemma prune_removes (p : node -> bool) :
  (forall q n, p (prune q n) = p n) ->
  forall n, Forall (fun d => p d = false) (descendants (prune p n)).
Proof.
  intros Hp. induction n as [text | name classes attrs contents IH]
    using node_induction; [constructor|].
  simpl prune. rewrite descendants_tag.
  induction IH as [|c cs Hc _ IHcs]; [constructor|].
  simpl. destruct (p c) eqn:E; [exact IHcs|].
  simpl. constructor; [now rewrite Hp|].
  apply Forall_app. split; [exact Hc | exact IHcs].
Qed.

Lemma prune_preserves (p q : node -> bool) :
  (forall q n, p (prune q n) = p n) ->
  forall n,
    Forall (fun d => p d = false) (descendants n) ->
    Forall (fun d => p d = false) (descendants (prune q n)).
Proof.
  intros Hp. induction n as [text | name classes attrs contents IH]
    using node_induction; [constructor|].
  simpl prune. rewrite !descendants_tag.
  induction IH as [|c cs Hc _ IHcs]; intros H; [constructor|].
  simpl in H. inversion H as [|? ? Hpc Hrest]; subst.
  apply Forall_app in Hrest as [Hdc Hcs].
  simpl. destruct (q c); [now apply IHcs|].
  simpl. constructor; [now rewrite Hp|].
  apply Forall_app. split; [now apply Hc | now apply IHcs].
Qed.

(** X16.  After the controls are removed no node below the root of the
    fragment is a button or carries a class token that contains [copy]
    in any case, so the converter never sees one. *)
Theorem remove_ui_leaves_no_control (content_copy : node) :
  Forall (fun d => is_button d = false /\ is_copy_element d = false)
    (descendants (remove_ui content_copy)).
Proof.
  unfold remove_ui.
  assert (Hb : Forall (fun d => is_button d = false)
                 (descendants (prune is_copy_element
                                 (prune is_button content_copy)))).
  { apply prune_preserves.
    - intros q n. apply prune_keeps_test.
    - apply prune_removes. intros q n. apply prune_keeps_test. }
  assert (Hc : Forall (fun d => is_copy_element d = false)
                 (descendants (prune is_copy_element
                                 (prune is_button content_copy)))).
  { apply prune_removes. intros q n. apply prune_keeps_test. }
  rewrite Forall_forall in *. intros d Hd. split; auto.
Qed.

(** *** How the extractors end *)

Section FallbackExceptions.

Variable number : Type.
Variable number_truthy : number -> bool.
Variable json_loads : str -> outcome (json number).
Variable py_repr : json number -> str.
Variable md : node -> str.

Lemma py_in_type_error (key : str) (x : json number) (e : exn) :
  py_in key x = Raised e -> e = TypeError.
Proof. destruct x; simpl; intros H; now inversion H. Qed.

Lemma py_getitem_after_in (x : json number) (key : str) (e : exn) :
  py_in key x = Returned true -> py_getitem x key = Raised e -> e = TypeError.
Proof.
  destruct x; simpl; intros Hin H; try now inversion H.
  destruct (dict_get key items); [discriminate | now inversion Hin].
Qed.

Lemma py_get_attribute_error (x : json number) (key : str) (d : json number)
    (e : exn) :
  py_get x key d = Raised e -> e = AttributeError.
Proof. destruct x; simpl; intros H; now inversion H. Qed.

Lemma py_values_attribute_error (x : json number) (e : exn) :
  py_values x = Raised e -> e = AttributeError.
Proof. destruct x; simpl; intros H; now inversion H. Qed.

Lemma py_iter_type_error (x : json number) (e : exn) :
  py_iter x = Raised e -> e = TypeError.
Proof. destruct x; simpl; intros H; now inversion H. Qed.

Lemma bind_raised_eq (A B : Type) (c : outcome A) (k : A -> outcome B)
    (e : exn) :
  bind c k = Raised e ->
  c = Raised e \/ exists a, c = Returned a /\ k a = Raised e.
Proof.
  destruct c as [a|e']; simpl; intros H; [right; eauto|].
  left. injection H as ->. reflexivity.
Qed.

(** Works through the calls of [get], [values] and the iteration. *)
Ltac raised_by_method :=
  repeat match goal with
    | H : bind _ _ = Raised _ |- _ =>
        apply bind_raised_eq in H as [H | (? & _ & H)]; cbv beta in H
    | H : py_get _ _ _ = Raised _ |- _ =>
        right; exact (py_get_attribute_error _ _ _ H)
    | H : py_values _ = Raised _ |- _ =>
        right; exact (py_values_attribute_error _ H)
    | H : py_iter _ = Raised _ |- _ => left; exact (py_iter_type_error _ H)
    | H : Returned _ = Raised _ |- _ => discriminate H
    | H : (if ?b then _ else _) = Raised _ |- _ => destruct b
    | H : match ?x with JNone => _ | _ => _ end = Raised _ |- _ => destruct x
    end.

Lemma mapping_values_exceptions (data : json number) (e : exn) :
  mapping_values number_truthy data = Raised e ->
  e = TypeError \/ e = AttributeError.
Proof.
  unfold mapping_values. intros H.
  apply bind_raised_eq in H as [H | (has_props & Hin & H)];
    [left; exact (py_in_type_error _ _ H)|].
  destruct has_props; simpl in H; [|discriminate].
  apply bind_raised_eq in H as [H | (props & Hget & H)];
    [left; exact (py_getitem_after_in _ _ Hin H)|].
  cbv beta in H.
  apply bind_raised_eq in H as [H | (has_page & Hin' & H)];
    [left; exact (py_in_type_error _ _ H)|].
  destruct has_page; simpl in H; [|discriminate].
  apply bind_raised_eq in H as [H | (page_props & Hget' & H)];
    [left; exact (py_getitem_after_in _ _ Hin' H)|].
  cbv beta in H. raised_by_method.
Qed.

Lemma node_body_exceptions (messages : list Message) (node_data : json number)
    (e : exn) :
  node_body number_truthy py_repr messages node_data = Raised e ->
  e = TypeError \/ e = AttributeError.
Proof. unfold node_body. intros H. raised_by_method. Qed.

Lemma node_loop_exceptions (values : list (json number)) :
  forall messages messages' e,
    node_loop number_truthy py_repr values messages = (messages', Some e) ->
    e = TypeError \/ e = AttributeError.
Proof.
  induction values as [|v rest IH]; intros messages messages' e; simpl.
  - discriminate.
  - destruct (node_body number_truthy py_repr messages v) eqn:E.
    + apply IH.
    + intros H. injection H as _ <-. exact (node_body_exceptions _ _ E).
Qed.

(** X17.  Inside the [try] of the fallback a [KeyError] cannot come
    from the walk over the decoded data: a key is read with brackets
    only after [in] has found it, and every other read uses [get].  It
    could only be one that [json.loads] itself raised. *)
Theorem walk_never_raises_key_error (script_string : str)
    (messages : list Message) :
  match script_body number_truthy json_loads py_repr script_string messages
  with
  | Except KeyError _ => json_loads script_string = Raised KeyError
  | _ => True
  end.
Proof.
  unfold script_body.
  destruct (json_loads script_string) as [data|e]; [|now destruct e].
  destruct (mapping_values number_truthy data) as [[values|]|e] eqn:E;
    [| exact I |].
  - destruct (node_loop number_truthy py_repr values messages)
      as [messages' [e|]] eqn:L.
    + destruct (node_loop_exceptions _ _ L) as [-> | ->]; exact I.
    + now destruct messages'.
  - destruct (mapping_values_exceptions _ E) as [-> | ->]; exact I.
Qed.

End FallbackExceptions.

(** X19.  The lookup of the display name in [main] never fails with
    [KeyError]: every platform that [detect_platform] returns is a key
    of the dictionary; and [derive_output_path] succeeds for every URL
    that [detect_platform] accepts. *)
Theorem detected_platform_has_name (url platform : str) :
  detect_platform url = Returned platform ->
  (exists name, platform_name platform = Returned name) /\
  (exists path, derive_output_path url = Returned path).
Proof.
  intros D. split.
  - destruct (detect_platform_names _ D) as [-> | [-> | ->]];
      eexists; reflexivity.
  - unfold derive_output_path. rewrite D. simpl bind.
    destruct (search_share_id url); eexists; reflexivity.
Qed.

Lemma detected_platform_has_name_witness :
  (exists name, platform_name (py "grok") = Returned name) /\
  (exists path,
      derive_output_path (py "https://grok.com/share/bGVnYWN5_0a1b-22")
      = Returned path).
Proof.
  apply (@detected_platform_has_name
           (py "https://grok.com/share/bGVnYWN5_0a1b-22") (py "grok")).
  reflexivity.
Defined.

(* ================================================================== *)
(** * The serialized text read line by line *)





